(** * Svara-weighted timing redistribution for the Rigveda karaoke scripts

    A shallow embedding of [rigveda/scripts/postprocess_sync.py], of the
    tokenizer and the word file of [rigveda/scripts/extract_text.py] and of
    the report of [rigveda/scripts/evaluate.py], with the properties the
    specification states about them and further properties of the code.

    Conventions of the embedding:
    - a Python [str] is a list of Unicode code points ([str := list N]), so
      that [len] counts code points as Python does;
    - the two regular expressions of the scripts and the [str] methods they
      use ([split], [strip], [replace]) are written as scanners with the
      leftmost, non-overlapping semantics of [re] and of [str];
    - Python [float] arithmetic is reached through the interface [Number],
      which has two instances: [binary64] (IEEE 754 double precision, what
      CPython executes, on the type [float]) and [exact] (the same
      operations over the rationals, on the type [Qc]). The scripts are
      translated once, over the interface;
    - exceptions are values of [exn]; a function that may raise returns a
      [result]. *)

From Stdlib Require Import ZArith NArith List Bool Lia QArith Qabs Qcanon Floats.
From Stdlib Require Import Ascii String.
From Stdlib Require Import DecimalN.
Import ListNotations.

Set Implicit Arguments.

Close Scope Qc_scope.
Close Scope Q_scope.
Close Scope string_scope.
Open Scope nat_scope.
Open Scope list_scope.

(** ** Python strings *)

Module PyStr.

Definition char := N.
Definition str := list char.

(** An ASCII literal as a Python string. *)
Definition py (s : string) : str :=
  List.map N_of_ascii (list_ascii_of_string s).

Fixpoint str_eqb (a b : str) : bool :=
  match a, b with
  | [], [] => true
  | x :: a', y :: b' => N.eqb x y && str_eqb a' b'
  | _, _ => false
  end.

Definition lbrace : char := 123%N.
Definition rbrace : char := 125%N.

(** [[0-9]] in a pattern. *)
Definition is_ascii_digit (c : char) : bool :=
  (N.leb 48 c && N.leb c 57)%N.

(** First code points of the ten-digit blocks of the Unicode decimal digits
    (general category Nd, Unicode 14). *)
Definition decimal_blocks : list N :=
  [48; 1632; 1776; 1984; 2406; 2534; 2662; 2790; 2918; 3046; 3174; 3302;
   3430; 3558; 3664; 3792; 3872; 4160; 4240; 6112; 6160; 6470; 6608; 6784;
   6800; 6992; 7088; 7232; 7248; 42528; 43216; 43264; 43472; 43504; 43600;
   44016; 65296; 66720; 68912; 69734; 69872; 69942; 70096; 70384; 70736;
   70864; 71248; 71360; 71472; 71904; 72016; 72784; 73040; 73120; 92768;
   92864; 93008; 123200; 123632; 125264; 130032]%N.

(** [\d] in a [str] pattern: any Unicode decimal digit (the blocks above and
    the mathematical digits U+1D7CE..U+1D7FF). *)
Definition is_unicode_decimal (c : char) : bool :=
  existsb (fun b => N.leb b c && N.ltb c (b + 10))%N decimal_blocks
  || (N.leb 120782 c && N.ltb c 120832)%N.

(** [str.isspace] on one code point: the separators of [str.split()] and the
    characters removed by [str.strip()]. *)
Definition is_space (c : char) : bool :=
  ((N.leb 9 c && N.leb c 13) || (N.leb 28 c && N.leb c 32)
   || N.eqb c 133 || N.eqb c 160 || N.eqb c 5760
   || (N.leb 8192 c && N.leb c 8202)
   || N.eqb c 8232 || N.eqb c 8233 || N.eqb c 8239 || N.eqb c 8287
   || N.eqb c 12288)%N.

(** [s.strip()] *)
Fixpoint lstrip (s : str) : str :=
  match s with
  | [] => []
  | c :: t => if is_space c then lstrip t else s
  end.

Definition rstrip (s : str) : str := rev (lstrip (rev s)).

Definition strip (s : str) : str := rstrip (lstrip s).

(** [s.split()]: the maximal runs of non-space characters, in order.
    [cur] is the word being read. *)
Fixpoint split_from (cur : str) (s : str) : list str :=
  match s with
  | [] => match cur with [] => [] | _ => [cur] end
  | c :: t =>
      if is_space c
      then match cur with
           | [] => split_from [] t
           | _ => cur :: split_from [] t
           end
      else split_from (cur ++ [c]) t
  end.

Definition split (s : str) : list str := split_from [] s.

(** [s.replace(old, new)] for a non-empty [old]: the occurrences of [old]
    are taken leftmost first and do not overlap. [skip] counts the characters
    of the current occurrence that are still to be dropped. *)
Fixpoint is_prefix (p s : str) : bool :=
  match p, s with
  | [], _ => true
  | x :: p', y :: s' => N.eqb x y && is_prefix p' s'
  | _ :: _, [] => false
  end.

Fixpoint replace_from (skip : nat) (old new : str) (s : str) : str :=
  match s with
  | [] => []
  | c :: t =>
      match skip with
      | S k => replace_from k old new t
      | O =>
          if is_prefix old s
          then new ++ replace_from (List.length old - 1) old new t
          else c :: replace_from 0 old new t
      end
  end.

Definition replace (old new : str) (s : str) : str := replace_from 0 old new s.

(** *** The pattern [\{[0-9]+\}] *)

(** Length of the longest run of ASCII digits at the start of [s]. *)
Fixpoint digit_run (s : str) : nat :=
  match s with
  | c :: t => if is_ascii_digit c then S (digit_run t) else O
  | [] => O
  end.

(** [marker_len s] is the length of the match of [\{[0-9]+\}] at the start
    of [s], if there is one: an opening brace, the whole run of digits that
    follows (one at least), a closing brace. *)
Definition marker_len (s : str) : option nat :=
  match s with
  | c :: t =>
      if N.eqb c lbrace
      then match digit_run t with
           | O => None
           | S n =>
               match nth_error t (S n) with
               | Some d => if N.eqb d rbrace then Some (S n + 2) else None
               | None => None
               end
           end
      else None
  | [] => None
  end.

(** [re.sub(r'\{[0-9]+\}', '', s)]: scanning from the left, a match is
    dropped and the scan resumes after it; any other character is kept.
    [skip] counts the characters of the current match still to be dropped. *)
Fixpoint sub_markers_from (skip : nat) (s : str) : str :=
  match s with
  | [] => []
  | c :: t =>
      match skip with
      | S k => sub_markers_from k t
      | O =>
          match marker_len s with
          | Some n => sub_markers_from (n - 1) t
          | None => c :: sub_markers_from 0 t
          end
      end
  end.

Definition sub_markers (s : str) : str := sub_markers_from 0 s.

(** *** The pattern [\{(\d)\}] *)

(** [[m.group(1) for m in re.finditer(r'\{(\d)\}', s)]]: the digit of every
    match, leftmost first; the scan resumes after a match, and one character
    further where there is none. *)
Fixpoint finditer_svara (s : str) : list char :=
  match s with
  | [] => []
  | a :: t1 =>
      match t1 with
      | [] => []
      | d :: t2 =>
          match t2 with
          | [] => []
          | r :: rest =>
              if N.eqb a lbrace && is_unicode_decimal d && N.eqb r rbrace
              then d :: finditer_svara rest
              else finditer_svara t1
          end
      end
  end.

End PyStr.
Import PyStr.

(** ** Exceptions *)

Inductive exn : Type :=
| IndexError          (* [fragments[-1]] and [lines[0]] on an empty list *)
| KeyError            (* [d[k]] for a key that [d] does not have *)
| ValueError          (* [float(s)] on a string that is no number *)
| OverflowError       (* [float(n)] on an [int] beyond the range of [float] *)
| ZeroDivisionError   (* [x / 0.0] *)
| OSError.            (* a file that cannot be read or written *)

Inductive result (A : Type) : Type :=
| Ok (a : A)
| Raise (e : exn).
Arguments Ok {A} a.
Arguments Raise {A} e.

Definition bind {A B : Type} (r : result A) (k : A -> result B) : result B :=
  match r with
  | Ok a => k a
  | Raise e => Raise e
  end.

Notation "x <- r ;; k" := (bind r (fun x => k))
  (at level 61, r at next level, right associativity).

(** ** Decimal rendering *)

Module Fmt.

Fixpoint uint_chars (d : Decimal.uint) : str :=
  match d with
  | Decimal.Nil => []
  | Decimal.D0 d' => 48%N :: uint_chars d'
  | Decimal.D1 d' => 49%N :: uint_chars d'
  | Decimal.D2 d' => 50%N :: uint_chars d'
  | Decimal.D3 d' => 51%N :: uint_chars d'
  | Decimal.D4 d' => 52%N :: uint_chars d'
  | Decimal.D5 d' => 53%N :: uint_chars d'
  | Decimal.D6 d' => 54%N :: uint_chars d'
  | Decimal.D7 d' => 55%N :: uint_chars d'
  | Decimal.D8 d' => 56%N :: uint_chars d'
  | Decimal.D9 d' => 57%N :: uint_chars d'
  end.

(** The decimal digits of a natural number, without leading zeros. *)
Definition N_chars (n : N) : str := uint_chars (N.to_uint n).

(** [n / d] rounded to the nearest integer, ties to even. *)
Definition round_half_even (n : Z) (d : positive) : Z :=
  let q := (n / Zpos d)%Z in
  let r := (n mod Zpos d)%Z in
  match (2 * r ?= Zpos d)%Z with
  | Lt => q
  | Gt => (q + 1)%Z
  | Eq => if Z.even q then q else (q + 1)%Z
  end.

(** The thousandths of [q], for [q >= 0]. *)
Definition millis (q : Q) : N :=
  Z.to_N (round_half_even (Qnum q * 1000) (Qden q)).

Definition frac3 (n : N) : str :=
  [48 + n / 100; 48 + (n / 10) mod 10; 48 + n mod 10]%N.

(** ['%.3f' % q] for [q >= 0]: [q] rounded to three fractional digits. *)
Definition fmt3_nonneg (q : Q) : str :=
  let n := millis q in
  N_chars (n / 1000) ++ [46%N] ++ frac3 (n mod 1000).

Definition minus_sign (neg : bool) : str := if neg then [45%N] else [].

End Fmt.

(** ** The arithmetic the scripts use *)

(** The values [float('inf')] and [float('nan')] name. *)
Inductive special : Type :=
| Infinity
| NaN.

(** What the scripts need of Python's [float]: decimal literals and
    [float(text)] ([of_decimal neg m k] is the float of [±m·10^-k],
    [of_special neg v] the float of a signed [inf] or [nan], where the
    arithmetic has one), the conversion of an [int] ([of_int], and
    [too_large] for the integers on which it raises [OverflowError]), the
    four operations, the test [y == 0.0] behind [ZeroDivisionError], and
    [f"{x:.3f}"] ([fmt3]). *)
Class Number (num : Type) : Type := {
  of_decimal : bool -> N -> nat -> num;
  of_special : bool -> special -> option num;
  of_int : Z -> num;
  too_large : Z -> bool;
  add : num -> num -> num;
  sub : num -> num -> num;
  mul : num -> num -> num;
  div : num -> num -> num;
  is_zero : num -> bool;
  fmt3 : num -> str
}.

(** *** IEEE 754 binary64, as CPython computes *)

Module Binary64.

(** The double nearest to [±m·10^-k] (ties to even): one correctly rounded
    division of two integers. *)
Definition sf_of_decimal (neg : bool) (m : N) (k : nat) : spec_float :=
  match m with
  | N0 => S754_zero neg
  | Npos p =>
      SFdiv prec emax (S754_finite neg p 0)
        (S754_finite false (Z.to_pos (10 ^ Z.of_nat k)) 0)
  end.

Definition of_decimal (neg : bool) (m : N) (k : nat) : float :=
  SF2Prim (sf_of_decimal neg m k).

Definition of_special (neg : bool) (v : special) : option float :=
  Some match v with
       | Infinity => if neg then neg_infinity else infinity
       | NaN => nan
       end.

Definition of_int (z : Z) : float :=
  SF2Prim (binary_normalize prec emax z 0 false).

(** [float(n)] raises [OverflowError] where the nearest double would be
    beyond the largest one: where rounding to nearest gives an infinity. *)
Definition too_large (z : Z) : bool :=
  match binary_normalize prec emax z 0 false with
  | S754_infinity _ => true
  | _ => false
  end.

(** The exact value of a finite double [m·2^e]. *)
Definition exact_value (m : positive) (e : Z) : Q :=
  match e with
  | Z0 => Qmake (Zpos m) 1
  | Zpos p => Qmake (Zpos m * 2 ^ Zpos p) 1
  | Zneg p => Qmake (Zpos m) (Z.to_pos (2 ^ Zpos p))
  end.

(** The exact value of a double, when it is finite. *)
Definition value (x : float) : option Q :=
  match Prim2SF x with
  | S754_zero _ => Some (Qmake 0 1)
  | S754_finite neg m e =>
      Some (if neg then Qopp (exact_value m e) else exact_value m e)
  | S754_infinity _ | S754_nan => None
  end.

(** The exact sum of finitely many finite doubles. *)
Fixpoint sum_values (xs : list float) : option Q :=
  match xs with
  | [] => Some (Qmake 0 1)
  | x :: rest =>
      match value x, sum_values rest with
      | Some q, Some r => Some (Qplus q r)
      | _, _ => None
      end
  end.

Definition fmt3 (x : float) : str :=
  match Prim2SF x with
  | S754_nan => py "nan"
  | S754_infinity neg => Fmt.minus_sign neg ++ py "inf"
  | S754_zero neg => Fmt.minus_sign neg ++ py "0.000"
  | S754_finite neg m e => Fmt.minus_sign neg ++ Fmt.fmt3_nonneg (exact_value m e)
  end.

End Binary64.

#[export] Instance binary64 : Number float := {|
  of_decimal := Binary64.of_decimal;
  of_special := Binary64.of_special;
  of_int := Binary64.of_int;
  too_large := Binary64.too_large;
  add := PrimFloat.add;
  sub := PrimFloat.sub;
  mul := PrimFloat.mul;
  div := PrimFloat.div;
  is_zero := fun x => PrimFloat.eqb x PrimFloat.zero;
  fmt3 := Binary64.fmt3
|}.

(** *** Exact rational arithmetic *)

Module Exact.

Definition of_decimal (neg : bool) (m : N) (k : nat) : Qc :=
  Q2Qc (Qmake (if neg then (- Z.of_N m)%Z else Z.of_N m)
              (Z.to_pos (10 ^ Z.of_nat k))).

Definition of_int (z : Z) : Qc := Q2Qc (inject_Z z).

Definition is_zero (x : Qc) : bool := Qeq_bool (this x) (inject_Z 0).

Definition fmt3 (x : Qc) : str :=
  let q := this x in
  if (Qnum q <? 0)%Z
  then Fmt.minus_sign true ++ Fmt.fmt3_nonneg (Qopp q)
  else Fmt.fmt3_nonneg q.

End Exact.

#[export] Instance exact : Number Qc := {|
  of_decimal := Exact.of_decimal;
  of_special := fun _ _ => None;
  of_int := Exact.of_int;
  too_large := fun _ => false;
  add := Qcplus;
  sub := Qcminus;
  mul := Qcmult;
  div := Qcdiv;
  is_zero := Exact.is_zero;
  fmt3 := Exact.fmt3
|}.

(** ** rigveda/scripts/postprocess_sync.py *)

Section Postprocess.

Context {num : Type} {Nm : Number num}.

(** The literals [0.0], [0.08], [0.20] and [0.1]. *)
Definition lit_0_0 : num := of_decimal false 0 1.
Definition lit_0_08 : num := of_decimal false 8 2.
Definition lit_0_20 : num := of_decimal false 20 2.
Definition lit_0_1 : num := of_decimal false 1 1.

(** A [dict] with [str] keys, in insertion order. *)
Definition dict (V : Type) := list (str * V).

Fixpoint dict_get {V : Type} (d : dict V) (k : str) (default : V) : V :=
  match d with
  | [] => default
  | (k', v) :: d' => if str_eqb k' k then v else dict_get d' k default
  end.

Definition dict_mem {V : Type} (k : str) (d : dict V) : bool :=
  existsb (fun kv => str_eqb (fst kv) k) d.

(** [d[k] += 1] for a key of [d]. *)
Definition dict_incr (k : str) (d : dict Z) : dict Z :=
  List.map (fun kv => if str_eqb (fst kv) k then (fst kv, (snd kv + 1)%Z) else kv) d.

(** Lines 28-33. *)
Definition SVARA_WEIGHTS : dict num :=
  [(py "0", lit_0_0); (py "1", lit_0_0); (py "2", lit_0_08); (py "5", lit_0_20)].

(** Lines 35-47. *)
Definition parse_svara_to_unicode (text_with_markers : str) : str :=
  replace (py "{0}") []
    (replace (py "{5}") [2385%N]
       (replace (py "{2}") [7386%N]
          (replace (py "{1}") [2386%N] text_with_markers))).

(** A parsed word: the dictionary built by [extract_svara_info] and
    completed by [extract_words_with_svaras]. [text_with_svaras] is optional
    because [adjust_timing] reads it with [.get]. *)
Record word : Type := {
  clean_text : str;
  text_with_svaras : option str;
  svara_counts : dict Z;
  total_svaras : Z;
  weight : num;
  raw : str
}.

(** Lines 59-60, one turn of the counting loop. *)
Definition count_step (svara_counts : dict Z) (svara_type : char) : dict Z :=
  if dict_mem [svara_type] svara_counts
  then dict_incr [svara_type] svara_counts
  else svara_counts.

(** Lines 54-60: the counting loop over the matches of [\{(\d)\}]. *)
Definition count_svaras (text_with_markers : str) : dict Z :=
  fold_left count_step (finditer_svara text_with_markers)
    [(py "0", 0%Z); (py "1", 0%Z); (py "2", 0%Z); (py "5", 0%Z)].

(** Lines 75-80. *)
Definition calculate_svara_weight (svara_counts : dict Z) : num :=
  fold_left
    (fun weight item =>
       add weight (mul (dict_get SVARA_WEIGHTS (fst item) lit_0_0) (of_int (snd item))))
    svara_counts lit_0_0.

(** Lines 49-73 and 94-96: [extract_svara_info] with the two entries
    [extract_words_with_svaras] adds to its result. *)
Definition extract_svara_info (text_with_markers : str) : word :=
  let svara_counts := count_svaras text_with_markers in
  {| clean_text := sub_markers text_with_markers;
     text_with_svaras := Some (parse_svara_to_unicode text_with_markers);
     svara_counts := svara_counts;
     total_svaras := fold_left Z.add (List.map snd svara_counts) 0%Z;
     weight := calculate_svara_weight svara_counts;
     raw := text_with_markers |}.

(** A line of the verse record: a string, a list whose parts are strings or
    something else, or any other JSON value. *)
Inductive part : Type :=
| PStr (s : str)
| POther.

Inductive line : Type :=
| LStr (s : str)
| LList (parts : list part)
| LOther.

(** Lines 82-99. *)
Definition extract_words_with_svaras (samhita_lines : list line) : list word :=
  flat_map
    (fun l =>
       match l with
       | LStr s => List.map extract_svara_info (split s)
       | _ => []
       end)
    samhita_lines.

(** A timestamp of the sync map as [json.load] gives it: a [str], a
    [float] (a JSON number with a fraction or an exponent) or an [int] (a
    JSON number without). *)
Inductive stamp : Type :=
| SText (s : str)
| SNum (x : num)
| SInt (n : Z).

(** [svara_info] of an adjusted fragment. *)
Record svara_info_t : Type := {
  counts : dict Z;
  bonus : num;
  original_duration : num;
  adjusted_duration : num
}.

(** A fragment of a sync map; the last two fields are the ones
    [adjust_timing] adds. *)
Record fragment : Type := {
  begin : stamp;
  end_ : stamp;
  lines : list str;
  lines_with_svaras : option (list str);
  svara_info : option svara_info_t
}.

Record sync_map : Type := { fragments : list fragment }.

(** *** [float(x)] on a timestamp *)

Fixpoint digits_value (acc : N) (s : str) : N :=
  match s with
  | [] => acc
  | c :: t => digits_value (acc * 10 + (c - 48))%N t
  end.

(** The optional sign of a number and what follows it. *)
Definition signed (s : str) : bool * str :=
  match s with
  | c :: t => if N.eqb c 45 then (true, t)
              else if N.eqb c 43 then (false, t) else (false, s)
  | [] => (false, [])
  end.

(** The value of a Unicode decimal digit. *)
Definition decimal_value (c : char) : option N :=
  if (N.leb 120782 c && N.ltb c 120832)%N then Some ((c - 120782) mod 10)%N
  else match find (fun b => N.leb b c && N.ltb c (b + 10))%N decimal_blocks with
       | Some b => Some (c - b)%N
       | None => None
       end.

(** What [float] makes of a code point before it reads the number: an ASCII
    character is kept, any other white space becomes a blank and any other
    decimal digit its ASCII digit; no other character is part of a number. *)
Definition to_ascii (c : char) : option char :=
  if N.ltb c 127 then Some c
  else if is_space c then Some 32%N
  else match decimal_value c with
       | Some d => Some (48 + d)%N
       | None => None
       end.

Fixpoint transform (s : str) : option str :=
  match s with
  | [] => Some []
  | c :: t =>
      match to_ascii c, transform t with
      | Some a, Some r => Some (a :: r)
      | _, _ => None
      end
  end.

(** The white space [float] skips around the number: the ASCII one, which
    leaves out the separators U+001C..U+001F that [str.strip] removes. *)
Definition is_ascii_space (c : char) : bool :=
  ((N.leb 9 c && N.leb c 13) || N.eqb c 32)%N.

Fixpoint skip_spaces (s : str) : str :=
  match s with
  | [] => []
  | c :: t => if is_ascii_space c then skip_spaces t else s
  end.

Definition trim (s : str) : str := rev (skip_spaces (rev (skip_spaces s))).

Definition underscore : char := 95%N.

(** Underscores group digits: each one stands between two digits.
    [after_digit] tells whether the character before [s] is a digit. *)
Fixpoint grouped (after_digit : bool) (s : str) : bool :=
  match s with
  | [] => true
  | c :: t =>
      if N.eqb c underscore
      then after_digit
           && match t with
              | d :: _ => is_ascii_digit d
              | [] => false
              end
           && grouped false t
      else grouped (is_ascii_digit c) t
  end.

Definition ungroup (s : str) : str := filter (fun c => negb (N.eqb c underscore)) s.

(** [[e|E] [sign] digits], or nothing: the decimal exponent. *)
Definition parse_exponent (s : str) : option Z :=
  match s with
  | [] => Some 0%Z
  | c :: t =>
      if N.eqb c 101 || N.eqb c 69
      then let '(neg, ds) := signed t in
           match ds with
           | [] => None
           | _ :: _ =>
               if digit_run ds =? List.length ds
               then Some (if neg then (- Z.of_N (digits_value 0 ds))%Z
                          else Z.of_N (digits_value 0 ds))
               else None
           end
      else None
  end.

(** [digits [. [digits]] [exponent]] or [. digits [exponent]]: the digits
    read as one integer [m] and the power of ten [e] that scales it. *)
Definition parse_number (s : str) : option (N * Z) :=
  let n := digit_run s in
  let ip := firstn n s in
  let '(fp, rest) :=
    match skipn n s with
    | c :: t => if N.eqb c 46
                then (firstn (digit_run t) t, skipn (digit_run t) t)
                else ([], c :: t)
    | [] => ([], [])
    end in
  match ip ++ fp with
  | [] => None
  | _ :: _ =>
      match parse_exponent rest with
      | Some e => Some (digits_value 0 (ip ++ fp), (e - Z.of_nat (List.length fp))%Z)
      | None => None
      end
  end.

Definition lower (c : char) : char :=
  if (N.leb 65 c && N.leb c 90)%N then (c + 32)%N else c.

(** [inf], [infinity] and [nan], in any case. *)
Definition parse_special (s : str) : option special :=
  let name := List.map lower s in
  if str_eqb name (py "inf") || str_eqb name (py "infinity") then Some Infinity
  else if str_eqb name (py "nan") then Some NaN
  else None.

(** What a string denotes for [float]. *)
Inductive numeral : Type :=
| Decimal (neg : bool) (m : N) (e : Z)     (* [±m·10^e] *)
| Special (neg : bool) (v : special).

(** The syntax of [float(s)]: white space, an optional sign, and a decimal
    number or the name of a special value. *)
Definition parse_float (s : str) : option numeral :=
  match transform s with
  | None => None
  | Some ascii =>
      let text := trim ascii in
      if grouped false text
      then let '(neg, body) := signed (ungroup text) in
           match parse_number body with
           | Some (m, e) => Some (Decimal neg m e)
           | None =>
               match parse_special body with
               | Some v => Some (Special neg v)
               | None => None
               end
           end
      else None
  end.

(** The float of [±m·10^e]. *)
Definition of_scientific (neg : bool) (m : N) (e : Z) : num :=
  match e with
  | Zneg k => of_decimal neg m (Pos.to_nat k)
  | _ => of_decimal neg (m * 10 ^ Z.to_N e)%N 0
  end.

(** [float(x)]: [ValueError] for a string that is no number, [OverflowError]
    for an [int] too large. *)
Definition float_of (t : stamp) : result num :=
  match t with
  | SNum x => Ok x
  | SInt n => if too_large n then Raise OverflowError else Ok (of_int n)
  | SText s =>
      match parse_float s with
      | Some (Decimal neg m e) => Ok (of_scientific neg m e)
      | Some (Special neg v) =>
          match of_special neg v with
          | Some x => Ok x
          | None => Raise ValueError
          end
      | None => Raise ValueError
      end
  end.

(** [x / y] *)
Definition divide (x y : num) : result num :=
  if is_zero y then Raise ZeroDivisionError else Ok (div x y).

(** *** [adjust_timing], lines 113-200 *)

(** Line 129: [frag['lines'][0] if frag.get('lines') else '']. *)
Definition frag_text (frag : fragment) : str :=
  match lines frag with
  | l :: _ => l
  | [] => []
  end.

(** Lines 130-133: the first word whose stripped clean text is the stripped
    fragment text. *)
Fixpoint first_match (frag_text : str) (words_with_svaras : list word) : option word :=
  match words_with_svaras with
  | [] => None
  | word_info :: rest =>
      if str_eqb (strip (clean_text word_info)) (strip frag_text)
      then Some word_info
      else first_match frag_text rest
  end.

(** Lines 127-133: [matched]. *)
Fixpoint match_by_text (fragments : list fragment) (words_with_svaras : list word)
  : list (fragment * word) :=
  match fragments with
  | [] => []
  | frag :: rest =>
      match first_match (frag_text frag) words_with_svaras with
      | Some word_info => (frag, word_info) :: match_by_text rest words_with_svaras
      | None => match_by_text rest words_with_svaras
      end
  end.

(** Lines 124-137: the words the fragments are zipped with, or [None] where
    the function returns [sync_data] as it is. *)
Definition matcher (fragments : list fragment) (words_with_svaras : list word)
  : option (list word) :=
  if List.length fragments =? List.length words_with_svaras
  then Some words_with_svaras
  else
    let matched := match_by_text fragments words_with_svaras in
    if List.length matched =? List.length fragments
    then Some (List.map snd matched)
    else None.

(** An entry of [word_weights], lines 155-163. *)
Record weight_info : Type := {
  wi_index : nat;
  wi_text : str;
  wi_text_with_svaras : str;
  wi_base_weight : num;
  wi_svara_bonus : num;
  wi_total_weight : num;
  wi_svara_counts : dict Z
}.

(** Lines 146-163, one turn of the loop. *)
Definition weigh (i : nat) (word_info : word) : weight_info :=
  let char_count := List.length (clean_text word_info) in
  let base_weight := mul (of_int (Z.of_nat char_count)) lit_0_1 in
  let svara_bonus := weight word_info in
  {| wi_index := i;
     wi_text := clean_text word_info;
     wi_text_with_svaras :=
       match text_with_svaras word_info with
       | Some t => t
       | None => clean_text word_info
       end;
     wi_base_weight := base_weight;
     wi_svara_bonus := svara_bonus;
     wi_total_weight := add base_weight svara_bonus;
     wi_svara_counts := svara_counts word_info |}.

(** Lines 144-163: [word_weights], one entry per pair of
    [zip(fragments, words_with_svaras)]. *)
Fixpoint word_weights_from (i : nat) (pairs : list (fragment * word)) : list weight_info :=
  match pairs with
  | [] => []
  | (_, word_info) :: rest => weigh i word_info :: word_weights_from (S i) rest
  end.

(** [sum(xs)] over floats: the additions from the left, starting at [0]
    (CPython up to 3.11; later versions compensate the rounding errors of
    the partial sums, which changes no exact sum). *)
Definition sum (xs : list num) : num := fold_left add xs (of_int 0).

(** Lines 172-198: the redistribution loop, [current_time] threaded through
    it. *)
Fixpoint redistribute (total_duration total_weight current_time : num)
  (pairs : list (fragment * weight_info)) : result (list fragment) :=
  match pairs with
  | [] => Ok []
  | (frag, wi) :: rest =>
      original_begin <- float_of (begin frag) ;;
      original_end <- float_of (end_ frag) ;;
      let original_duration := sub original_end original_begin in
      weight_ratio <- divide (wi_total_weight wi) total_weight ;;
      let new_duration := mul total_duration weight_ratio in
      let adjusted_frag :=
        {| begin := SText (fmt3 current_time);
           end_ := SText (fmt3 (add current_time new_duration));
           lines := lines frag;
           lines_with_svaras := Some [wi_text_with_svaras wi];
           svara_info :=
             Some {| counts := wi_svara_counts wi;
                     bonus := wi_svara_bonus wi;
                     original_duration := original_duration;
                     adjusted_duration := new_duration |} |} in
      adjusted <- redistribute total_duration total_weight
                    (add current_time new_duration) rest ;;
      Ok (adjusted_frag :: adjusted)
  end.

(** Lines 139-200: what [adjust_timing] does once the words are chosen. *)
Definition adjust_matched (fragments : list fragment) (words_with_svaras : list word)
  : result sync_map :=
  match fragments with
  | [] => Raise IndexError
  | first :: _ =>
      last_end <- float_of (end_ (last fragments first)) ;;
      first_begin <- float_of (begin first) ;;
      let total_duration := sub last_end first_begin in
      let word_weights := word_weights_from 0 (combine fragments words_with_svaras) in
      let total_weight := sum (List.map wi_total_weight word_weights) in
      current_time <- float_of (begin first) ;;
      adjusted_fragments <- redistribute total_duration total_weight current_time
                              (combine fragments word_weights) ;;
      Ok {| fragments := adjusted_fragments |}
  end.

Definition adjust_timing (sync_data : sync_map) (words_with_svaras : list word)
  : result sync_map :=
  match matcher (fragments sync_data) words_with_svaras with
  | None => Ok sync_data
  | Some words_with_svaras => adjust_matched (fragments sync_data) words_with_svaras
  end.

(** *** [process_verse] and the batch, lines 202-225 and 264-279 *)

(** The verse record: [verse_data.get('samhita', {}).get('lines', [])]. *)
Record verse_data : Type := { samhita_lines : list line }.

(** What the file system gives one verse: the two [load_*] calls, each of
    which returns or raises, and whether the adjusted map can be written. *)
Record verse_files : Type := {
  load_verse_data : result verse_data;
  load_sync_data : result sync_map;
  output_writable : bool
}.

(** [(True, str(output_path))], with the map that was written there, or
    [(False, str(e))]. *)
Inductive verse_report : Type :=
| Saved (adjusted_sync : sync_map)
| Failed (e : exn).

Definition process_verse (files : verse_files) : bool * verse_report :=
  match
    (verse_data <- load_verse_data files ;;
     sync_data <- load_sync_data files ;;
     let words_with_svaras := extract_words_with_svaras (samhita_lines verse_data) in
     adjusted_sync <- adjust_timing sync_data words_with_svaras ;;
     if output_writable files then Ok adjusted_sync else Raise OSError)
  with
  | Ok adjusted_sync => (true, Saved adjusted_sync)
  | Raise e => (false, Failed e)
  end.

(** Lines 237-241 of [compare_timing]: the table [main] prints after a
    success reads the four timestamps of every pair of fragments as
    numbers; the rest of it only formats text. *)
Fixpoint compare_timing_rows (rows : list (fragment * fragment)) : result unit :=
  match rows with
  | [] => Ok tt
  | (orig, adj) :: rest =>
      orig_end <- float_of (end_ orig) ;;
      orig_begin <- float_of (begin orig) ;;
      adj_end <- float_of (end_ adj) ;;
      adj_begin <- float_of (begin adj) ;;
      compare_timing_rows rest
  end.

Definition compare_timing (original adjusted : sync_map) : result unit :=
  compare_timing_rows (combine (fragments original) (fragments adjusted)).

(** Lines 264-279: the loop of [main] over the verses of the batch. The
    report of a verse is kept; after a success the sync map is loaded again
    and compared with the map that was written, and an exception there is
    caught by nothing: it ends the batch. *)
Fixpoint main (batch : list verse_files) : result (list (bool * verse_report)) :=
  match batch with
  | [] => Ok []
  | files :: rest =>
      let report := process_verse files in
      _ <- match snd report with
           | Saved adjusted =>
               original <- load_sync_data files ;;
               compare_timing original adjusted
           | Failed _ => Ok tt
           end ;;
      reports <- main rest ;;
      Ok (report :: reports)
  end.

End Postprocess.

Arguments word : clear implicits.
Arguments stamp : clear implicits.
Arguments svara_info_t : clear implicits.
Arguments fragment : clear implicits.
Arguments sync_map : clear implicits.
Arguments weight_info : clear implicits.
Arguments verse_files : clear implicits.
Arguments verse_report : clear implicits.

(** ** rigveda/scripts/extract_text.py *)

Module ExtractText.

(** Lines 16-18. *)
Definition clean_svara_markers (text : str) : str := sub_markers text.

Definition nonempty (s : str) : bool :=
  match s with
  | [] => false
  | _ :: _ => true
  end.

(** Lines 27-29 and 34-35: [[w.strip() for w in clean.split() if w.strip()]]. *)
Definition line_words (s : str) : list str :=
  let clean := clean_svara_markers s in
  List.map strip (filter (fun w => nonempty (strip w)) (split clean)).

(** Lines 20-38, on the lines of the verse record. *)
Definition extract_words_from_samhita (lines : list line) : list str :=
  flat_map
    (fun l =>
       match l with
       | LStr s => line_words s
       | LList parts =>
           flat_map
             (fun p =>
                match p with
                | PStr s => line_words s
                | POther => []
                end)
             parts
       | LOther => []
       end)
    lines.

End ExtractText.
Import ExtractText.



(** ** rigveda/scripts/evaluate.py *)

Module Evaluate.

(** The hundredths of [q], for [q >= 0]. *)
Definition centis (q : Q) : N :=
  Z.to_N (Fmt.round_half_even (Qnum q * 100) (Qden q)).

Definition frac2 (n : N) : str := [48 + n / 10; 48 + n mod 10]%N.

(** ['%.2f' % q] for [q >= 0]. *)
Definition fmt2_nonneg (q : Q) : str :=
  let n := centis q in
  Fmt.N_chars (n / 100) ++ [46%N] ++ frac2 (n mod 100).

(** What the script needs of [float] beyond [Number]: the comparison
    [x < y] ([x > y] is [y < x]) and [f"{x:.2f}"]. *)
Class Ordered (num : Type) : Type := {
  ltb : num -> num -> bool;
  fmt2 : num -> str
}.

Definition binary64_fmt2 (x : float) : str :=
  match Prim2SF x with
  | S754_nan => py "nan"
  | S754_infinity neg => Fmt.minus_sign neg ++ py "inf"
  | S754_zero neg => Fmt.minus_sign neg ++ py "0.00"
  | S754_finite neg m e => Fmt.minus_sign neg ++ fmt2_nonneg (Binary64.exact_value m e)
  end.

#[global] Instance binary64_ordered : Ordered float := {|
  ltb := PrimFloat.ltb;
  fmt2 := binary64_fmt2
|}.

Definition exact_ltb (x y : Qc) : bool :=
  (Qnum (this x) * Z.pos (Qden (this y)) <? Qnum (this y) * Z.pos (Qden (this x)))%Z.

Definition exact_fmt2 (x : Qc) : str :=
  let q := this x in
  if (Qnum q <? 0)%Z
  then Fmt.minus_sign true ++ fmt2_nonneg (Qopp q)
  else fmt2_nonneg q.

#[global] Instance exact_ordered : Ordered Qc := {|
  ltb := exact_ltb;
  fmt2 := exact_fmt2
|}.

Section Analysis.

Context {num : Type} {Nm : Number num} {Od : Ordered num}.

(** The literal [5.0]. *)
Definition lit_5_0 : num := of_decimal false 50 1.

(** A fragment as [analyze_alignment] reads it: its two timestamps and,
    where the fragment has the key, its ['lines']. *)
Record aligned : Type := {
  a_begin : stamp num;
  a_end : stamp num;
  a_lines : option (list str)
}.

(** An entry of [durations], lines 31-36. *)
Record timing : Type := {
  t_word : str;
  t_begin : num;
  t_end : num;
  t_duration : num
}.

(** The dictionary of lines 50-58. *)
Record report : Type := {
  word_count : nat;
  total_duration : num;
  avg_duration : num;
  min_duration : num;
  max_duration : num;
  durations : list timing;
  issues : list str
}.

(** What [analyze_alignment] returns: [{'error': 'No fragments found'}] or
    the report. *)
Inductive analysis : Type :=
| NoFragments
| Report (r : report).

(** Line 32: [frag['lines'][0]], [KeyError] without the key and
    [IndexError] on an empty list. *)
Definition first_line (frag : aligned) : result str :=
  match a_lines frag with
  | None => Raise KeyError
  | Some [] => Raise IndexError
  | Some (l :: _) => Ok l
  end.

(** Lines 27-36: the loop over the fragments. *)
Fixpoint measure (fragments : list aligned) : result (list timing) :=
  match fragments with
  | [] => Ok []
  | frag :: rest =>
      begin_ <- float_of (a_begin frag) ;;
      end__ <- float_of (a_end frag) ;;
      let duration := sub end__ begin_ in
      word <- first_line frag ;;
      measured <- measure rest ;;
      Ok ({| t_word := word; t_begin := begin_; t_end := end__; t_duration := duration |}
          :: measured)
  end.

(** [min(xs)] and [max(xs)]: the first item is kept until a later one is
    smaller, or greater; on an empty sequence they raise [ValueError]. *)
Definition py_min (xs : list num) : result num :=
  match xs with
  | [] => Raise ValueError
  | x :: rest => Ok (fold_left (fun cur item => if ltb item cur then item else cur) rest x)
  end.

Definition py_max (xs : list num) : result num :=
  match xs with
  | [] => Raise ValueError
  | x :: rest => Ok (fold_left (fun cur item => if ltb cur item then item else cur) rest x)
  end.

(** Lines 44-48, one turn. *)
Definition flag (d : timing) : list str :=
  if ltb (t_duration d) lit_0_1
  then [py "Very short: '" ++ t_word d ++ py "' (" ++ fmt2 (t_duration d) ++ py "s)"]
  else if ltb lit_5_0 (t_duration d)
  then [py "Very long: '" ++ t_word d ++ py "' (" ++ fmt2 (t_duration d) ++ py "s)"]
  else [].

(** Lines 12-58, on what [json.load] gives for the file, reduced to
    [data.get('fragments', [])]. *)
Definition analyze_alignment (sync_file : result (list aligned)) : result analysis :=
  fragments <- sync_file ;;
  match fragments with
  | [] => Ok NoFragments
  | first :: _ =>
      let word_count := List.length fragments in
      total_duration <- float_of (a_end (last fragments first)) ;;
      durations <- measure fragments ;;
      avg_duration <- divide (sum (List.map t_duration durations))
                        (of_int (Z.of_nat word_count)) ;;
      min_duration <- py_min (List.map t_duration durations) ;;
      max_duration <- py_max (List.map t_duration durations) ;;
      Ok (Report {| word_count := word_count;
                    total_duration := total_duration;
                    avg_duration := avg_duration;
                    min_duration := min_duration;
                    max_duration := max_duration;
                    durations := durations;
                    issues := flat_map flag durations |})
  end.

(** How [main] ends: with the totals it prints (verses processed, words
    aligned, potential issues), or with an exception, which nothing
    catches. *)
Inductive ending : Type :=
| Summary (verses words issues : nat)
| Uncaught (e : exn).

(** Lines 70-99: the loop of [main] over the sync files, [None] for a file
    that does not exist, with the three totals it keeps; line 82 reads
    [result['word_count']], which the error record does not have. *)
Fixpoint main_from (verses total_words total_issues : nat)
  (sync_files : list (option (result (list aligned)))) : ending :=
  match sync_files with
  | [] => Summary verses total_words total_issues
  | None :: rest => main_from verses total_words total_issues rest
  | Some sync_file :: rest =>
      match analyze_alignment sync_file with
      | Raise e => Uncaught e
      | Ok NoFragments => Uncaught KeyError
      | Ok (Report result) =>
          main_from (S verses) (total_words + word_count result)
            (total_issues + List.length (issues result)) rest
      end
  end.

Definition main (sync_files : list (option (result (list aligned)))) : ending :=
  main_from 0 0 0 sync_files.

End Analysis.

Arguments aligned : clear implicits.
Arguments timing : clear implicits.
Arguments report : clear implicits.
Arguments analysis : clear implicits.

End Evaluate.

(** What [measure] records for a fragment. *)
Definition measured {num : Type} {Nm : Number num}
  (frag : Evaluate.aligned num) (d : Evaluate.timing num) : Prop :=
  exists b e l,
    float_of (Evaluate.a_begin frag) = Ok b /\ float_of (Evaluate.a_end frag) = Ok e /\
    Evaluate.a_lines frag = Some l /\ hd_error l = Some (Evaluate.t_word d) /\
    Evaluate.t_begin d = b /\ Evaluate.t_end d = e /\ Evaluate.t_duration d = sub e b.

(** ** The files of a verse *)

Module Paths.

(** [str(n)] for an [int]. *)
Definition int_chars (n : Z) : str :=
  match n with
  | Z0 => py "0"
  | Zpos p => Fmt.N_chars (Npos p)
  | Zneg p => 45%N :: Fmt.N_chars (Npos p)
  end.

(** [f"{n:03d}"]: the sign, then the digits with zeros before them up to a
    width of three characters, the sign included. *)
Definition int_chars_03 (n : Z) : str :=
  let sign := match n with Zneg _ => [45%N] | _ => [] end in
  let digits := Fmt.N_chars (Z.abs_N n) in
  sign ++ repeat 48%N (3 - List.length sign - List.length digits) ++ digits.

(** [directory / name] on a [Path]. *)
Definition path_join (directory name : str) : str := directory ++ 47%N :: name.

(** Lines 22-24. *)
Definition DATA_DIR : str := py "/Users/hvina/projects/rigveda-sanatana/rigveda-app/src/data".
Definition SYNC_DIR : str := py "/Users/hvina/projects/rigveda-sanatana/poc/output".
Definition OUTPUT_DIR : str := py "/Users/hvina/projects/rigveda-sanatana/poc/output_adjusted".

(** [f"{mandala}.{sukta}.{rik}_sync.json"] *)
Definition sync_name (mandala sukta rik : Z) : str :=
  int_chars mandala ++ 46%N :: int_chars sukta ++ 46%N :: int_chars rik ++ py "_sync.json".

(** Line 103: the path [load_verse_data] opens. *)
Definition verse_path (mandala sukta rik : Z) : str :=
  path_join (path_join (path_join DATA_DIR (int_chars_03 mandala)) (int_chars_03 sukta))
    (int_chars_03 rik ++ py ".json").

(** Line 109: the path [load_sync_data] opens. *)
Definition sync_path (mandala sukta rik : Z) : str :=
  path_join SYNC_DIR (sync_name mandala sukta rik).

(** Line 218: the path [process_verse] writes. *)
Definition output_path (mandala sukta rik : Z) : str :=
  path_join OUTPUT_DIR (sync_name mandala sukta rik).

End Paths.

(** The integer written at the start of a string, and what follows it: an
    optional minus sign and the longest run of digits. *)
Definition read_int (s : str) : Z * str :=
  match s with
  | c :: t =>
      if N.eqb c 45
      then (- Z.of_N (digits_value 0 (firstn (digit_run t) t)), skipn (digit_run t) t)%Z
      else (Z.of_N (digits_value 0 (firstn (digit_run s) s)), skipn (digit_run s) s)
  | [] => (0%Z, [])
  end.

(** ** Notions the properties are stated with *)

(** The marker with code [ds]: [{ds}]. *)
Definition marker (ds : str) : str := lbrace :: ds ++ [rbrace].

(** [s] contains a marker: an occurrence of [\{[0-9]+\}]. *)
Definition has_marker (s : str) : Prop :=
  exists pre ds post,
    ds <> [] /\ forallb is_ascii_digit ds = true /\ s = pre ++ marker ds ++ post.

(** The same, decided by trying every position. *)
Fixpoint has_markerb (s : str) : bool :=
  match s with
  | [] => false
  | _ :: t =>
      match marker_len s with
      | Some _ => true
      | None => has_markerb t
      end
  end.

(** The four codes of [SVARA_WEIGHTS]. *)
Definition known_code (ds : str) : bool :=
  existsb (str_eqb ds) [py "0"; py "1"; py "2"; py "5"].

(** Number of positions of [s] at which [pat] occurs. *)
Fixpoint occurrences (pat s : str) : nat :=
  match s with
  | [] => 0
  | _ :: t => (if is_prefix pat s then 1 else 0) + occurrences pat t
  end.

(** Occurrence count of the marker [{code}] in a raw token. *)
Definition marker_count (code : char) (raw : str) : Z :=
  Z.of_nat (occurrences (marker [code]) raw).

(** The [adjusted_duration] entries of a fragment sequence, in order. *)
Definition adjusted_durations {num : Type} (frs : list (fragment num)) : list num :=
  flat_map
    (fun f =>
       match svara_info f with
       | Some info => [adjusted_duration info]
       | None => []
       end)
    frs.


(** The total weight [W] of the pairs [adjust_timing] redistributes over. *)
Definition total_weight {num : Type} {Nm : Number num} (frs : list (fragment num)) (words : list (word num)) : num :=
  sum (List.map wi_total_weight (word_weights_from 0 (combine frs words))).

(** [w] is the first word of [words] whose stripped clean text is the
    stripped text of [frag]. *)
Definition first_equal_word {num : Type} (words : list (word num)) (frag : fragment num) (w : word num)
  : Prop :=
  exists before after,
    words = before ++ w :: after /\
    strip (clean_text w) = strip (frag_text frag) /\
    Forall (fun w' => strip (clean_text w') <> strip (frag_text frag)) before.

(** No word of [words] has the text of [frag]. *)
Definition no_equal_word {num : Type} (words : list (word num)) (frag : fragment num) : Prop :=
  forall w, In w words -> strip (clean_text w) <> strip (frag_text frag).

(** The recovery path as the specification words it: every fragment, in
    order, takes the first word not yet taken whose clean text is the
    fragment's text verbatim; a fragment that finds none makes the matching
    infeasible. [take_first_equal] returns the word taken and the words
    that remain. *)
Fixpoint take_first_equal {num : Type} (text : str) (words : list (word num))
  : option (word num * list (word num)) :=
  match words with
  | [] => None
  | w :: rest =>
      if str_eqb (clean_text w) text
      then Some (w, rest)
      else match take_first_equal text rest with
           | Some (found, remaining) => Some (found, w :: remaining)
           | None => None
           end
  end.

Fixpoint consuming_recovery {num : Type} (frs : list (fragment num)) (words : list (word num))
  : option (list (fragment num * word num)) :=
  match frs with
  | [] => Some []
  | frag :: rest =>
      match take_first_equal (frag_text frag) words with
      | Some (w, remaining) =>
          match consuming_recovery rest remaining with
          | Some pairs => Some ((frag, w) :: pairs)
          | None => None
          end
      | None => None
      end
  end.

(** The [(begin, end)] pairs of a sync map. *)
Definition boundaries {num : Type} (sync_data : sync_map num) : list (stamp num * stamp num) :=
  List.map (fun f => (begin f, end_ f)) (fragments sync_data).

(** ** Inputs of the examples *)

(** A fragment as the aligner writes it: textual timestamps, one line. *)
Definition plain_fragment {num : Type} (b e text : string) : fragment num :=
  {| begin := SText (py b);
     end_ := SText (py e);
     lines := [py text];
     lines_with_svaras := None;
     svara_info := None |}.

(** What the file system gives for a verse whose two records load and whose
    output can be written. *)
Definition loaded {num : Type} (lines : list line) (sync_data : sync_map num) : verse_files num :=
  {| load_verse_data := Ok {| samhita_lines := lines |};
     load_sync_data := Ok sync_data;
     output_writable := true |}.

(** Three fragments spanning [1.0 .. 4.0] and three words of 3, 5 and 2
    characters without accents: weights 0.3, 0.5 and 0.2. *)
Definition three_fragments {num : Type} : sync_map num :=
  {| fragments := [plain_fragment "1.000" "2.000" "abc";
                   plain_fragment "2.000" "3.000" "abcde";
                   plain_fragment "3.000" "4.000" "ab"] |}.

Definition three_words {num : Type} {Nm : Number num} : list (word num) :=
  extract_words_with_svaras [LStr (py "abc abcde ab")].



(** Two fragments with the same text and a verse in which that text is a
    word once only. *)
Definition repeated_sync {num : Type} : sync_map num :=
  {| fragments := [plain_fragment "0.000" "1.000" "ile";
                   plain_fragment "1.000" "2.000" "ile"] |}.

Definition repeated_lines : list line := [LStr (py "ile")].

(** The matcher example of the specification. *)
Definition agni_sync {num : Type} : sync_map num :=
  {| fragments := [plain_fragment "0.000" "1.000" "agni";
                   plain_fragment "1.000" "2.000" "ile"] |}.

Definition agni_lines : list line := [LStr (py "agni puro hitam ile")].


(** The duration weight of a word, as line 154 computes it:
    [len(clean_text) * 0.1 + weight]. *)
Definition word_weight {num : Type} {Nm : Number num} (w : word num) : num :=
  wi_total_weight (weigh 0 w).

(** Both timestamps of a fragment are numbers. *)
Definition timed {num : Type} {Nm : Number num} (f : fragment num) : Prop :=
  exists b e, float_of (begin f) = Ok b /\ float_of (end_ f) = Ok e.

(** The boundaries the loop of lines 172-198 goes through: [current_time]
    before and after each turn, for the weights [ws]. *)
Fixpoint instants {num : Type} {Nm : Number num} (T W t : num) (ws : list num)
  : list (num * num) :=
  match ws with
  | [] => []
  | w :: rest =>
      let t' := add t (mul T (div w W)) in
      (t, t') :: instants T W t' rest
  end.

(** A pair of instants as [adjust_timing] writes it. *)
Definition rendered {num : Type} {Nm : Number num} (p : num * num) : stamp num * stamp num :=
  (SText (fmt3 (fst p)), SText (fmt3 (snd p))).

(** A string without white space. *)
Definition no_space (s : str) : bool := forallb (fun c => negb (is_space c)) s.

(** The word [split] yields for a finished run of characters. *)
Definition words_of (cur : str) : list str :=
  match cur with
  | [] => []
  | _ => [cur]
  end.

(** Number of matches whose digit is [c]. *)
Definition cnt (c : char) (l : list char) : Z := Z.of_nat (count_occ N.eq_dec l c).

(** The dictionary of counts with the given values. *)
Definition counts_of (a0 a1 a2 a5 : Z) : dict Z :=
  [(py "0", a0); (py "1", a1); (py "2", a2); (py "5", a5)].






(** A line that is a plain string. *)
Definition plain_line (l : line) : bool :=
  match l with
  | LStr _ => true
  | _ => false
  end.

(** The strings of a verse, those inside list lines included, each as a
    line of its own. *)
Definition flatten_lines (lines : list line) : list line :=
  flat_map
    (fun l =>
       match l with
       | LStr s => [LStr s]
       | LList parts =>
           flat_map
             (fun p =>
                match p with
                | PStr s => [LStr s]
                | POther => []
                end)
             parts
       | LOther => []
       end)
    lines.

(** A verse with a token made of a marker only, and one with a list line. *)
Definition marker_token_lines : list line := [LStr (py "a {0} b")].

Definition nested_lines : list line := [LStr (py "agni"); LList [PStr (py "ile")]].

(** ** Further notions and inputs *)

(** The entries [adjust_timing] adds to a fragment, for the word [w] it is
    paired with; [T] is the span and [W] the total weight. *)
Definition annotated {num : Type} {Nm : Number num} (T W : num)
  (p : fragment num * word num) (adj : fragment num) : Prop :=
  lines adj = lines (fst p) /\
  lines_with_svaras adj =
    Some [match text_with_svaras (snd p) with
          | Some t => t
          | None => clean_text (snd p)
          end] /\
  exists info b e,
    svara_info adj = Some info /\
    counts info = svara_counts (snd p) /\
    bonus info = weight (snd p) /\
    float_of (begin (fst p)) = Ok b /\
    float_of (end_ (fst p)) = Ok e /\
    original_duration info = sub e b /\
    adjusted_duration info = mul T (div (word_weight (snd p)) W).


(** A token as it is written in the verse records: stretches of text
    without an opening brace, and markers [{k}] of one character. *)
Inductive piece : Type :=
| Text (s : str)
| Mark (k : char).

Definition piece_ok (p : piece) : bool :=
  match p with
  | Text s => forallb (fun c => negb (N.eqb c lbrace)) s
  | Mark k => is_ascii_digit k
  end.

(** The token itself. *)
Definition written (ps : list piece) : str :=
  flat_map (fun p => match p with Text s => s | Mark k => marker [k] end) ps.

(** Its text alone. *)
Definition text_of (ps : list piece) : str :=
  flat_map (fun p => match p with Text s => s | Mark _ => [] end) ps.

(** The accent sign of a marker: the three diacritics of lines 44-46,
    nothing for [{0}], and the marker itself for any other code. *)
Definition accent (k : char) : str :=
  if N.eqb k 49 then [2386%N]
  else if N.eqb k 50 then [7386%N]
  else if N.eqb k 53 then [2385%N]
  else if N.eqb k 48 then []
  else marker [k].

(** Its text with the accent signs in the place of the markers. *)
Definition accented (ps : list piece) : str :=
  flat_map (fun p => match p with Text s => s | Mark k => accent k end) ps.

(** The codes of its markers, in order. *)
Definition codes (ps : list piece) : list char :=
  flat_map (fun p => match p with Text _ => [] | Mark k => [k] end) ps.

(** The token after some of the replacements of [parse_svara_to_unicode]:
    [sign k] is what stands for the marker of code [k], if it has been
    replaced already. *)
Definition partly (sign : char -> option str) (ps : list piece) : str :=
  flat_map
    (fun p =>
       match p with
       | Text s => s
       | Mark k => match sign k with Some a => a | None => marker [k] end
       end)
    ps.

(** The characters of a number written by a format: digits, the point and
    the minus sign. *)
Definition numeric (c : char) : bool := is_ascii_digit c || N.eqb c 46 || N.eqb c 45.




(** A fragment as [evaluate.py] finds it in a sync file. *)
Definition aligned_fragment {num : Type} (b e text : string) : Evaluate.aligned num :=
  {| Evaluate.a_begin := SText (py b);
     Evaluate.a_end := SText (py e);
     Evaluate.a_lines := Some [py text] |}.

(** Three fragments from 0.0 to 0.1, a tenth of a second each. *)
Definition tenths_aligned {num : Type} : list (Evaluate.aligned num) :=
  [aligned_fragment "0.000" "0.100" "a";
   aligned_fragment "0.000" "0.100" "b";
   aligned_fragment "0.000" "0.100" "c"].

(** A fragment without the key ['lines']. *)
Definition no_lines_aligned {num : Type} : list (Evaluate.aligned num) :=
  [aligned_fragment "0.000" "1.000" "agni";
   {| Evaluate.a_begin := SText (py "1.000");
      Evaluate.a_end := SText (py "2.000");
      Evaluate.a_lines := None |}].

(** A sync map without fragments. *)
Definition empty_sync {num : Type} : sync_map num := {| fragments := [] |}.


(** A token of the first verse, in Latin letters: text and two markers. *)
Definition agnim_pieces : list piece :=
  [Text (py "a"); Mark 49%N; Text (py "gnim"); Mark 50%N].

(** Number of occurrences of the four markers that are counted. *)
Definition counted (s : str) : nat :=
  occurrences (marker [48%N]) s + occurrences (marker [49%N]) s
  + occurrences (marker [50%N]) s + occurrences (marker [53%N]) s.


(** A sync map with a timestamp that is no number, and a verse none of
    whose words is the text of its fragment. *)
Definition untimed_sync {num : Type} : sync_map num :=
  {| fragments := [plain_fragment "0.000" "soon" "agni"] |}.

Definition other_lines : list line := [LStr (py "ile deva")].

(** One fragment whose begin is written with four decimals, and its verse. *)
Definition half_millis_sync {num : Type} : sync_map num :=
  {| fragments := [plain_fragment "0.0005" "1.000" "agni"] |}.

Definition agni_line : list line := [LStr (py "agni")].

(** * Properties *)

Unset Implicit Arguments.

(** ** The two patterns *)


Lemma sub_markers_from_skipn (s : str) :
  forall k, sub_markers_from k s = sub_markers (skipn k s).
Proof.
  induction s as [|c t IH]; intros k.
  - destruct k; reflexivity.
  - destruct k as [|k]; [reflexivity|].
    cbn [sub_markers_from skipn]. apply IH.
Qed.

Lemma marker_len_bounds (s : str) (n : nat) :
  marker_len s = Some n -> 3 <= n <= List.length s.
Proof.
  destruct s as [|c t]; [discriminate|]. cbn [marker_len].
  destruct (N.eqb c lbrace); [|discriminate].
  destruct (digit_run t) as [|m] eqn:R; [discriminate|].
  destruct (nth_error t (S m)) as [d|] eqn:E; [|discriminate].
  destruct (N.eqb d rbrace); [|discriminate].
  intros [= <-]. 
  assert (S m < List.length t) by (apply nth_error_Some; congruence).
  cbn [List.length]. lia.
Qed.

Lemma sub_markers_cons (c : char) (t : str) :
  sub_markers (c :: t) =
  match marker_len (c :: t) with
  | Some n => sub_markers (skipn n (c :: t))
  | None => c :: sub_markers t
  end.
Proof.
  unfold sub_markers at 1. cbn [sub_markers_from].
  destruct (marker_len (c :: t)) as [n|] eqn:E; [|reflexivity].
  apply marker_len_bounds in E. destruct n as [|n]; [lia|].
  cbn [skipn]. replace (S n - 1) with n by lia. apply sub_markers_from_skipn.
Qed.

Lemma digit_run_le (s : str) : digit_run s <= List.length s.
Proof. induction s as [|c t IH]; cbn; [lia|]. destruct (is_ascii_digit c); cbn; lia. Qed.

Lemma digit_run_firstn (s : str) : forallb is_ascii_digit (firstn (digit_run s) s) = true.
Proof.
  induction s as [|c t IH]; cbn; [reflexivity|].
  destruct (is_ascii_digit c) eqn:D; cbn; [rewrite D; exact IH|reflexivity].
Qed.

Lemma digit_run_app_stop (ds rest : str) (c : char) :
  forallb is_ascii_digit ds = true -> is_ascii_digit c = false ->
  digit_run (ds ++ c :: rest) = List.length ds.
Proof.
  intros H Hc. induction ds as [|d ds IH]; cbn in *.
  - now rewrite Hc.
  - apply andb_true_iff in H as [Hd H]. rewrite Hd. f_equal. auto.
Qed.

Lemma rbrace_not_digit : is_ascii_digit rbrace = false.
Proof. reflexivity. Qed.
Lemma lbrace_not_digit : is_ascii_digit lbrace = false.
Proof. reflexivity. Qed.

Lemma marker_len_marker (ds post : str) :
  ds <> [] -> forallb is_ascii_digit ds = true ->
  marker_len (marker ds ++ post) = Some (List.length ds + 2).
Proof.
  intros Hne Hd. unfold marker. cbn [app marker_len].
  rewrite N.eqb_refl. rewrite <- app_assoc. cbn [app].
  rewrite (digit_run_app_stop ds post rbrace Hd rbrace_not_digit).
  destruct ds as [|d ds]; [congruence|]. cbn [List.length].
  rewrite nth_error_app2 by (cbn; lia).
  replace (S (List.length ds) - List.length (d :: ds)) with 0 by (cbn; lia).
  cbn. reflexivity.
Qed.

Lemma nth_error_firstn_skipn {A : Type} (l : list A) :
  forall n x, nth_error l n = Some x -> l = firstn n l ++ x :: skipn (S n) l.
Proof.
  induction l as [|a l IH]; intros [|n] x H; try discriminate.
  - injection H as ->. reflexivity.
  - cbn in H. cbn [firstn skipn app]. f_equal. apply (IH n x H).
Qed.

Lemma marker_len_Some (s : str) (n : nat) :
  marker_len s = Some n ->
  exists ds post, ds <> [] /\ forallb is_ascii_digit ds = true /\
                  s = marker ds ++ post /\ n = List.length ds + 2.
Proof.
  destruct s as [|c t]; [discriminate|]. cbn [marker_len].
  destruct (N.eqb_spec c lbrace) as [->|]; [|discriminate].
  destruct (digit_run t) as [|m] eqn:R; [discriminate|].
  destruct (nth_error t (S m)) as [d|] eqn:E; [|discriminate].
  destruct (N.eqb_spec d rbrace) as [->|]; [|discriminate].
  intros [= <-].
  exists (firstn (S m) t), (skipn (S (S m)) t).
  assert (L : S m < List.length t) by (apply nth_error_Some; congruence).
  repeat split.
  - destruct t; cbn; [cbn in L; lia|discriminate].
  - rewrite <- R. apply digit_run_firstn.
  - unfold marker. cbn [app]. f_equal. rewrite <- app_assoc. cbn [app].
    apply nth_error_firstn_skipn. exact E.
  - rewrite length_firstn. lia.
Qed.

Lemma digit_run_app_boundary (t rest : str) (c : char) :
  is_ascii_digit c = false -> digit_run (t ++ c :: rest) = digit_run t.
Proof.
  intros Hc. induction t as [|d t IH]; cbn.
  - now rewrite Hc.
  - destruct (is_ascii_digit d); [f_equal; exact IH|reflexivity].
Qed.

Lemma marker_len_app_boundary (pre rest : str) (c : char) :
  pre <> [] -> is_ascii_digit c = false -> c <> rbrace ->
  marker_len (pre ++ c :: rest) = marker_len pre.
Proof.
  intros Hne Hc Hr. destruct pre as [|a t]; [congruence|].
  cbn [app marker_len]. destruct (N.eqb a lbrace); [|reflexivity].
  rewrite (digit_run_app_boundary t rest c Hc).
  destruct (digit_run t) as [|n] eqn:R; [reflexivity|].
  pose proof (digit_run_le t) as L. rewrite R in L.
  destruct (Nat.eq_dec (S n) (List.length t)) as [E|E].
  - rewrite nth_error_app2 by lia. rewrite E, Nat.sub_diag. cbn.
    destruct (N.eqb_spec c rbrace); [contradiction|].
    destruct (nth_error t (List.length t)) eqn:F; [|reflexivity].
    assert (List.length t < List.length t) by (apply nth_error_Some; congruence). lia.
  - rewrite nth_error_app1 by lia. reflexivity.
Qed.

Lemma sub_markers_nil : sub_markers [] = [].
Proof. reflexivity. Qed.

Lemma sub_markers_app_boundary (c : char) (rest : str) :
  is_ascii_digit c = false -> c <> rbrace ->
  forall pre, sub_markers (pre ++ c :: rest) = sub_markers pre ++ sub_markers (c :: rest).
Proof.
  intros Hc Hr pre.
  remember (List.length pre) as n eqn:Hn.
  revert pre Hn. induction n as [n IH] using lt_wf_ind. intros pre Hn.
  destruct pre as [|a t]; [reflexivity|].
  change ((a :: t) ++ c :: rest) with (a :: (t ++ c :: rest)).
  rewrite (sub_markers_cons a (t ++ c :: rest)), (sub_markers_cons a t).
  change (a :: (t ++ c :: rest)) with ((a :: t) ++ c :: rest).
  rewrite (marker_len_app_boundary (a :: t) rest c) by (auto; discriminate).
  destruct (marker_len (a :: t)) as [k|] eqn:E.
  - apply marker_len_bounds in E.
    rewrite skipn_app.
    replace (k - List.length (a :: t)) with 0 by lia. cbn [skipn].
    apply (IH (List.length (skipn k (a :: t)))); [|reflexivity].
    rewrite length_skipn. subst n. lia.
  - cbn [app]. f_equal. apply (IH (List.length t)); [subst n; cbn; lia|reflexivity].
Qed.

(** Strings with and without markers. *)
Lemma has_marker_cons (c : char) (t : str) : has_marker t -> has_marker (c :: t).
Proof.
  intros (pre & ds & post & H1 & H2 & ->). exists (c :: pre), ds, post. auto.
Qed.

Lemma sub_markers_clean (s : str) : ~ has_marker s -> sub_markers s = s.
Proof.
  induction s as [|c t IH]; intros H; [reflexivity|].
  rewrite sub_markers_cons.
  destruct (marker_len (c :: t)) as [n|] eqn:E.
  - exfalso. apply H. apply marker_len_Some in E as (ds & post & H1 & H2 & H3 & _).
    exists [], ds, post. auto.
  - f_equal. apply IH. intros Hm. apply H. now apply has_marker_cons.
Qed.

Lemma has_markerb_false (s : str) : has_markerb s = false -> ~ has_marker s.
Proof.
  induction s as [|c t IH]; intros Hb (pre & ds & post & H1 & H2 & H3).
  - destruct pre; discriminate.
  - cbn [has_markerb] in Hb.
    destruct (marker_len (c :: t)) eqn:E; [discriminate|].
    destruct pre as [|a pre].
    + cbn [app] in H3. rewrite H3, marker_len_marker in E by assumption. discriminate.
    + injection H3 as -> ->. apply (IH Hb). exists pre, ds, post. auto.
Qed.

Lemma has_markerb_true (s : str) : has_markerb s = true -> has_marker s.
Proof.
  induction s as [|c t IH]; intros Hb; [discriminate|].
  cbn [has_markerb] in Hb.
  destruct (marker_len (c :: t)) eqn:E.
  - apply marker_len_Some in E as (ds & post & H1 & H2 & H3 & _).
    exists [], ds, post. auto.
  - apply has_marker_cons. auto.
Qed.

Lemma sub_markers_length_upto (n : nat) :
  forall s, List.length s <= n -> List.length (sub_markers s) <= List.length s.
Proof.
  induction n as [|n IH]; intros s Hn.
  - destruct s; [cbn; lia|cbn in Hn; lia].
  - destruct s as [|c t]; [cbn; lia|].
    rewrite sub_markers_cons.
    destruct (marker_len (c :: t)) as [k|] eqn:E.
    + apply marker_len_bounds in E.
      assert (L : List.length (skipn k (c :: t)) <= n)
        by (rewrite length_skipn; cbn [List.length] in *; lia).
      specialize (IH _ L). rewrite length_skipn in IH. lia.
    + cbn [List.length] in *. specialize (IH t ltac:(lia)). lia.
Qed.

Lemma sub_markers_length (s : str) : List.length (sub_markers s) <= List.length s.
Proof. apply (sub_markers_length_upto (List.length s)). lia. Qed.

Lemma sub_markers_shrinks (s : str) : has_marker s -> List.length (sub_markers s) < List.length s.
Proof.
  induction s as [|c t IH]; intros H.
  - destruct H as (pre & ds & post & _ & _ & H). destruct pre; discriminate.
  - rewrite sub_markers_cons.
    destruct (marker_len (c :: t)) as [k|] eqn:E.
    + apply marker_len_bounds in E.
      pose proof (sub_markers_length (skipn k (c :: t))) as L.
      rewrite length_skipn in L. lia.
    + cbn [List.length]. apply -> Nat.succ_lt_mono. apply IH.
      destruct H as (pre & ds & post & H1 & H2 & H3).
      destruct pre as [|a pre].
      * cbn [app] in H3. rewrite H3, marker_len_marker in E by assumption. discriminate.
      * injection H3 as -> ->. exists pre, ds, post. auto.
Qed.


Lemma space_not_marker_char (c : char) :
  is_space c = true -> is_ascii_digit c = false /\ c <> rbrace /\ c <> lbrace.
Proof.
  unfold is_space, is_ascii_digit, rbrace, lbrace. intros H.
  repeat (apply orb_true_iff in H as [H|H]);
    repeat (apply andb_true_iff in H as [H ?]);
    repeat match goal with
           | H : N.leb _ _ = true |- _ => apply N.leb_le in H
           | H : N.eqb _ _ = true |- _ => apply N.eqb_eq in H
           end;
    (split; [apply andb_false_iff; rewrite !N.leb_gt; lia | split; lia]).
Qed.

Lemma no_space_app (a b : str) : no_space (a ++ b) = no_space a && no_space b.
Proof. apply forallb_app. Qed.

Lemma split_from_word (w : str) :
  no_space w = true ->
  forall cur rest, split_from cur (w ++ rest) = split_from (cur ++ w) rest.
Proof.
  induction w as [|c w IH]; intros H cur rest.
  - now rewrite app_nil_r.
  - cbn in H. apply andb_true_iff in H as [Hc H].
    cbn [app split_from]. apply negb_true_iff in Hc. rewrite Hc.
    rewrite IH by assumption. now rewrite <- app_assoc.
Qed.

Lemma split_from_words (s : str) :
  forall cur, no_space cur = true ->
  Forall (fun w => no_space w = true /\ w <> []) (split_from cur s).
Proof.
  induction s as [|c t IH]; intros cur Hc; cbn [split_from].
  - destruct cur; constructor; [split; [assumption|discriminate]|constructor].
  - destruct (is_space c) eqn:S.
    + destruct cur; [apply IH; reflexivity|].
      constructor; [split; [assumption|discriminate]|apply IH; reflexivity].
    + apply IH. rewrite no_space_app, Hc. cbn. now rewrite S.
Qed.

Lemma lstrip_no_space (w : str) : no_space w = true -> lstrip w = w.
Proof.
  destruct w as [|c w]; [reflexivity|]. cbn. intros H.
  apply andb_true_iff in H as [Hc _]. apply negb_true_iff in Hc. now rewrite Hc.
Qed.

Lemma no_space_rev (w : str) : no_space (rev w) = no_space w.
Proof.
  induction w as [|c w IH]; [reflexivity|].
  cbn [rev]. rewrite no_space_app, IH. cbn. rewrite andb_true_r. apply andb_comm.
Qed.

Lemma strip_no_space (w : str) : no_space w = true -> strip w = w.
Proof.
  intros H. unfold strip, rstrip. rewrite (lstrip_no_space w H).
  rewrite lstrip_no_space by (now rewrite no_space_rev). apply rev_involutive.
Qed.

Lemma sub_markers_no_space_upto (n : nat) :
  forall s, List.length s <= n -> no_space s = true -> no_space (sub_markers s) = true.
Proof.
  induction n as [|n IH]; intros s Hn Hs.
  - destruct s; [reflexivity|cbn in Hn; lia].
  - destruct s as [|c t]; [reflexivity|].
    rewrite sub_markers_cons.
    destruct (marker_len (c :: t)) as [k|] eqn:E.
    + apply marker_len_bounds in E. apply IH.
      * rewrite length_skipn. cbn [List.length] in *. lia.
      * rewrite <- (firstn_skipn k (c :: t)) in Hs.
        rewrite no_space_app in Hs. now apply andb_true_iff in Hs.
    + cbn in Hs. apply andb_true_iff in Hs as [Hc Hs].
      cbn. rewrite Hc. apply IH; [cbn in Hn; lia|assumption].
Qed.

Lemma sub_markers_no_space (s : str) : no_space s = true -> no_space (sub_markers s) = true.
Proof. apply (sub_markers_no_space_upto (List.length s)). lia. Qed.

Lemma sub_markers_space_cons (c : char) (t : str) :
  is_space c = true -> sub_markers (c :: t) = c :: sub_markers t.
Proof.
  intros H. rewrite sub_markers_cons. cbn [marker_len].
  destruct (space_not_marker_char c H) as (_ & _ & Hl).
  destruct (N.eqb_spec c lbrace); [contradiction|reflexivity].
Qed.


Lemma split_from_space (cur : str) (c : char) (t : str) :
  is_space c = true -> split_from cur (c :: t) = words_of cur ++ split t.
Proof. intros H. cbn [split_from]. rewrite H. destruct cur; reflexivity. Qed.

Lemma split_sub_markers (s : str) :
  forall cur, no_space cur = true ->
  split (sub_markers (cur ++ s)) =
  filter nonempty (List.map sub_markers (split_from cur s)).
Proof.
  induction s as [|c t IH]; intros cur Hc.
  - rewrite app_nil_r. cbn [split_from].
    pose proof (sub_markers_no_space cur Hc) as Hn.
    unfold split. rewrite <- (app_nil_r (sub_markers cur)).
    rewrite (split_from_word (sub_markers cur) Hn [] []). cbn [app split_from].
    destruct cur as [|a cur]; [reflexivity|].
    cbn [List.map filter]. destruct (sub_markers (a :: cur)); reflexivity.
  - destruct (is_space c) eqn:S.
    + destruct (space_not_marker_char c S) as (Hd & Hr & _).
      rewrite (sub_markers_app_boundary c t Hd Hr cur).
      rewrite (sub_markers_space_cons c t S).
      pose proof (sub_markers_no_space cur Hc) as Hn.
      unfold split at 1.
      rewrite (split_from_word (sub_markers cur) Hn [] (c :: sub_markers t)).
      cbn [app]. rewrite (split_from_space (sub_markers cur) c (sub_markers t) S).
      rewrite (split_from_space cur c t S).
      rewrite map_app, filter_app.
      specialize (IH [] eq_refl). cbn [app] in IH. rewrite IH. unfold split.
      f_equal. destruct cur as [|a cur]; [reflexivity|].
      cbn [words_of List.map filter]. destruct (sub_markers (a :: cur)); reflexivity.
    + cbn [split_from]. rewrite S.
      rewrite <- (IH (cur ++ [c])).
      * now rewrite <- app_assoc.
      * rewrite no_space_app, Hc. cbn. now rewrite S.
Qed.

Lemma line_words_split (s : str) :
  line_words s = filter nonempty (List.map sub_markers (split s)).
Proof.
  unfold line_words, clean_svara_markers.
  assert (H : forall l, Forall (fun w => no_space w = true /\ w <> []) l ->
              List.map strip (filter (fun w => nonempty (strip w)) l) = l).
  { induction 1 as [|w l [Hw Hne] _ IH]; [reflexivity|].
    cbn [filter]. rewrite (strip_no_space w Hw).
    destruct w; [congruence|]. cbn [nonempty List.map]. rewrite IH.
    f_equal. apply (strip_no_space _ Hw). }
  rewrite H by (apply split_from_words; reflexivity).
  apply (split_sub_markers s [] eq_refl).
Qed.

(** The matches of the counting pattern. *)
Lemma finditer_skip (a : char) (t : str) :
  a <> lbrace -> finditer_svara (a :: t) = finditer_svara t.
Proof.
  intros H. destruct t as [|d [|r rest]]; try reflexivity.
  cbn [finditer_svara]. destruct (N.eqb_spec a lbrace); [contradiction|reflexivity].
Qed.




Lemma cnt_cons (c d : char) (l : list char) :
  cnt c (d :: l) = ((if N.eqb d c then 1 else 0) + cnt c l)%Z.
Proof.
  unfold cnt. cbn [count_occ]. destruct (N.eq_dec d c) as [->|H].
  - rewrite N.eqb_refl. lia.
  - destruct (N.eqb_spec d c); [contradiction|]. lia.
Qed.




Lemma count_step_counts (d : char) (a0 a1 a2 a5 : Z) :
  count_step (counts_of a0 a1 a2 a5) d =
  counts_of (a0 + (if N.eqb d 48 then 1 else 0)) (a1 + (if N.eqb d 49 then 1 else 0))
            (a2 + (if N.eqb d 50 then 1 else 0)) (a5 + (if N.eqb d 53 then 1 else 0)).
Proof.
  unfold count_step, counts_of, dict_mem, dict_incr.
  change (py "0") with [48%N]. change (py "1") with [49%N].
  change (py "2") with [50%N]. change (py "5") with [53%N].
  cbn [existsb List.map fst snd str_eqb]. rewrite !andb_true_r, !orb_false_r.
  rewrite !(N.eqb_sym _ d).
  destruct (N.eqb_spec d 48) as [->|H0]; [cbn; now rewrite !Z.add_0_r|].
  destruct (N.eqb_spec d 49) as [->|H1]; [cbn; now rewrite !Z.add_0_r|].
  destruct (N.eqb_spec d 50) as [->|H2]; [cbn; now rewrite !Z.add_0_r|].
  destruct (N.eqb_spec d 53) as [->|H5]; [cbn; now rewrite !Z.add_0_r|].
  cbn. now rewrite !Z.add_0_r.
Qed.

Lemma count_fold (l : list char) :
  forall a0 a1 a2 a5,
    fold_left count_step l (counts_of a0 a1 a2 a5) =
    counts_of (a0 + cnt 48%N l) (a1 + cnt 49%N l) (a2 + cnt 50%N l) (a5 + cnt 53%N l).
Proof.
  induction l as [|d l IH]; intros a0 a1 a2 a5.
  - cbn [fold_left]. unfold cnt. cbn. now rewrite !Z.add_0_r.
  - cbn [fold_left]. rewrite count_step_counts, IH, !cnt_cons.
    now rewrite <- !Z.add_assoc.
Qed.

Lemma count_svaras_counts (raw : str) :
  count_svaras raw =
  counts_of (cnt 48%N (finditer_svara raw)) (cnt 49%N (finditer_svara raw))
            (cnt 50%N (finditer_svara raw)) (cnt 53%N (finditer_svara raw)).
Proof.
  unfold count_svaras. change (fold_left _ ?l ?i) with (fold_left count_step l (counts_of 0 0 0 0)).
  now rewrite count_fold.
Qed.

Lemma is_prefix_marker1 (c a d r : char) (rest : str) :
  is_prefix (marker [c]) (a :: d :: r :: rest) = N.eqb a lbrace && N.eqb d c && N.eqb r rbrace.
Proof.
  unfold marker. cbn [app is_prefix]. rewrite andb_true_r.
  rewrite (N.eqb_sym lbrace a), (N.eqb_sym c d), (N.eqb_sym rbrace r). apply andb_assoc.
Qed.

Lemma occurrences_cons (pat : str) (a : char) (t : str) :
  occurrences pat (a :: t) = (if is_prefix pat (a :: t) then 1 else 0) + occurrences pat t.
Proof. reflexivity. Qed.

Lemma occurrences_skip (pat : str) (a : char) (t : str) :
  is_prefix pat (a :: t) = false -> occurrences pat (a :: t) = occurrences pat t.
Proof. intros H. cbn [occurrences]. now rewrite H. Qed.

Lemma is_prefix_marker_head (ds : str) (a : char) (t : str) :
  a <> lbrace -> is_prefix (marker ds) (a :: t) = false.
Proof.
  intros H. unfold marker. cbn [is_prefix].
  destruct (N.eqb_spec lbrace a); [congruence|reflexivity].
Qed.

Lemma count_finditer_upto (c : char) (n : nat) :
  is_unicode_decimal c = true ->
  forall s, List.length s <= n ->
  count_occ N.eq_dec (finditer_svara s) c = occurrences (marker [c]) s.
Proof.
  intros Hc. induction n as [|n IH]; intros s Hn.
  - destruct s; [reflexivity|cbn in Hn; lia].
  - destruct s as [|a [|d [|r rest]]].
    + reflexivity.
    + unfold marker. cbn. now rewrite andb_false_r.
    + unfold marker. cbn. now rewrite !andb_false_r.
    + cbn [finditer_svara]. rewrite occurrences_cons, is_prefix_marker1.
      destruct (N.eqb_spec a lbrace) as [->|Ha]; cbn [andb].
      2:{ apply (IH (d :: r :: rest)). cbn in *; lia. }
      destruct (N.eqb_spec r rbrace) as [->|Hr].
      * destruct (is_unicode_decimal d) eqn:Hd; cbn [andb].
        -- rewrite andb_true_r.
           assert (d <> lbrace) by (intros ->; discriminate).
           rewrite (occurrences_skip _ d _ (is_prefix_marker_head [c] d _ H)).
           rewrite (occurrences_skip _ rbrace _ (is_prefix_marker_head [c] rbrace _ ltac:(discriminate))).
           cbn [count_occ]. rewrite <- (IH rest) by (cbn in *; lia).
           destruct (N.eq_dec d c) as [->|Hdc].
           ++ now rewrite N.eqb_refl.
           ++ destruct (N.eqb_spec d c); [contradiction|reflexivity].
        -- rewrite andb_true_r. destruct (N.eqb_spec d c) as [->|Hdc]; [congruence|].
           cbn [Nat.add]. apply (IH (d :: rbrace :: rest)). cbn in *; lia.
      * rewrite !andb_false_r. cbn [Nat.add].
        apply (IH (d :: r :: rest)). cbn in *; lia.
Qed.

Lemma cnt_finditer (c : char) (raw : str) :
  is_unicode_decimal c = true -> cnt c (finditer_svara raw) = marker_count c raw.
Proof.
  intros Hc. unfold cnt, marker_count. f_equal.
  apply (count_finditer_upto c (List.length raw) Hc). lia.
Qed.

(** ** Redistribution *)


Lemma bind_Ok {A B : Type} (r : result A) (k : A -> result B) (b : B) :
  bind r k = Ok b -> exists a, r = Ok a /\ k a = Ok b.
Proof. destruct r as [a|e]; cbn; [eauto|discriminate]. Qed.

Ltac bind_inv H :=
  let a := fresh "v" in
  let Ha := fresh "E" in
  apply bind_Ok in H as (a & Ha & H).

Section Redistribution.
Context {num : Type} {Nm : Number num}.

Lemma matcher_length (frs : list (fragment num)) (words paired : list (word num)) :
  matcher frs words = Some paired -> List.length paired = List.length frs.
Proof.
  unfold matcher. destruct (Nat.eqb_spec (List.length frs) (List.length words)).
  - intros [= <-]. congruence.
  - destruct (Nat.eqb_spec (List.length (match_by_text frs words)) (List.length frs)); [|discriminate].
    intros [= <-]. now rewrite length_map.
Qed.

Lemma word_weights_from_length (pairs : list (fragment num * word num)) :
  forall i, List.length (word_weights_from i pairs) = List.length pairs.
Proof.
  induction pairs as [|[f w] ps IH]; intros i; cbn; [reflexivity|]. now rewrite IH.
Qed.


End Redistribution.

(** ** Exact arithmetic *)








Lemma map_snd_combine {A B : Type} (l : list A) (l' : list B) :
  List.length l = List.length l' -> List.map snd (combine l l') = l'.
Proof.
  revert l'. induction l as [|a l IH]; intros [|b l'] H; try discriminate; [reflexivity|].
  cbn. f_equal. apply IH. now injection H.
Qed.

Lemma map_combine_snd {A B C : Type} (f : B -> C) (l : list A) (l' : list B) :
  List.length l = List.length l' ->
  List.map (fun p => f (snd p)) (combine l l') = List.map f l'.
Proof. intros H. now rewrite <- (map_map snd f), map_snd_combine. Qed.




(** One run on binary64: the doubles written as [adjusted_duration] for the
    three fragments spanning 1.0 to 4.0 add up, exactly, to within 0.001 of
    the span 3. *)
Lemma binary64_durations_example :
  match adjust_timing (Nm:=binary64) three_fragments three_words with
  | Ok out =>
      match Binary64.sum_values (adjusted_durations (fragments out)) with
      | Some total => Qle_bool (Qabs (total - 3)) (1 # 1000)
      | None => false
      end
  | Raise _ => false
  end = true.
Proof. vm_compute. reflexivity. Qed.

(** ** The matcher *)


Lemma str_eqb_eq (a b : str) : str_eqb a b = true <-> a = b.
Proof.
  revert b. induction a as [|x a IH]; intros [|y b]; cbn; split; try congruence; try discriminate.
  - intros H. apply andb_true_iff in H as [H1 H2]. apply N.eqb_eq in H1. apply IH in H2. congruence.
  - intros [= -> ->]. rewrite N.eqb_refl. now apply IH.
Qed.

Section Matching.
Context {num : Type} {Nm : Number num}.

Lemma first_match_Some (text : str) (words : list (word num)) (w : word num) :
  first_match text words = Some w <->
  exists before after,
    words = before ++ w :: after /\
    strip (clean_text w) = strip text /\
    Forall (fun w' => strip (clean_text w') <> strip text) before.
Proof.
  induction words as [|x words IH]; cbn [first_match].
  - split; [discriminate|]. intros (b & a & H & _). destruct b; discriminate.
  - destruct (str_eqb (strip (clean_text x)) (strip text)) eqn:E.
    + apply str_eqb_eq in E. split.
      * intros [= <-]. exists [], words. auto.
      * intros (b & a & H & Hw & Hb). destruct b as [|y b].
        -- now injection H as ->.
        -- injection H as <- _. inversion Hb; contradiction.
    + assert (Hx : strip (clean_text x) <> strip text)
        by (intros H; apply str_eqb_eq in H; congruence).
      rewrite IH. split.
      * intros (b & a & -> & Hw & Hb). exists (x :: b), a. auto.
      * intros (b & a & H & Hw & Hb). destruct b as [|y b].
        -- injection H as -> _. contradiction.
        -- injection H as -> ->. inversion Hb; subst. exists b, a. auto.
Qed.

Lemma first_match_None (text : str) (words : list (word num)) :
  first_match text words = None <->
  forall w, In w words -> strip (clean_text w) <> strip text.
Proof.
  induction words as [|x words IH]; cbn [first_match].
  - split; [intros _ w []|reflexivity].
  - destruct (str_eqb (strip (clean_text x)) (strip text)) eqn:E.
    + apply str_eqb_eq in E. split; [discriminate|].
      intros H. exfalso. apply (H x); [now left|assumption].
    + rewrite IH. split.
      * intros H w [<-|Hw]; [|now apply H].
        intros Hx. apply str_eqb_eq in Hx. congruence.
      * intros H w Hw. apply H. now right.
Qed.

Lemma match_by_text_length (frs : list (fragment num)) (words : list (word num)) :
  List.length (match_by_text frs words) <= List.length frs.
Proof.
  induction frs as [|f frs IH]; cbn [match_by_text]; [cbn; lia|].
  destruct (first_match (frag_text f) words); cbn [List.length]; lia.
Qed.

Lemma match_by_text_complete (frs : list (fragment num)) (words : list (word num)) :
  List.length (match_by_text frs words) = List.length frs <->
  Forall2 (first_equal_word words) frs (List.map snd (match_by_text frs words)).
Proof.
  induction frs as [|f frs IH]; cbn [match_by_text].
  - split; [constructor|reflexivity].
  - destruct (first_match (frag_text f) words) as [w|] eqn:E.
    + cbn [List.length List.map snd]. split.
      * intros [= H]. constructor; [now apply first_match_Some|now apply IH].
      * intros H. inversion H; subst. f_equal. now apply IH.
    + pose proof (match_by_text_length frs words). split.
      * cbn [List.length]. lia.
      * intros H2. apply Forall2_length in H2. rewrite length_map in H2.
        cbn [List.length] in *. lia.
Qed.

Lemma first_equal_word_unique (words : list (word num)) (frag : fragment num) (w w' : word num) :
  first_equal_word words frag w -> first_equal_word words frag w' -> w = w'.
Proof.
  intros H H'. apply first_match_Some in H, H'. congruence.
Qed.

Lemma match_by_text_failure (frs : list (fragment num)) (words : list (word num)) :
  List.length (match_by_text frs words) <> List.length frs <->
  exists frag, In frag frs /\ no_equal_word words frag.
Proof.
  induction frs as [|f frs IH]; cbn [match_by_text].
  - split; [intros H; now contradiction H|]. intros (frag & [] & _).
  - destruct (first_match (frag_text f) words) as [w|] eqn:E.
    + cbn [List.length]. split.
      * intros H. destruct IH as [IH _]. destruct IH as (frag & Hin & Hno); [lia|].
        exists frag. split; [now right|assumption].
      * intros (frag & [<-|Hin] & Hno).
        -- unfold no_equal_word in Hno. apply first_match_None in Hno. congruence.
        -- intros [= H]. apply IH in H; [assumption|]. eauto.
    + pose proof (match_by_text_length frs words). split.
      * intros _. exists f. split; [now left|]. unfold no_equal_word. now apply first_match_None.
      * intros _. cbn [List.length]. lia.
Qed.

Lemma matcher_None (frs : list (fragment num)) (words : list (word num)) :
  matcher frs words = None <->
  List.length frs <> List.length words /\
  exists frag, In frag frs /\ no_equal_word words frag.
Proof.
  unfold matcher. destruct (Nat.eqb_spec (List.length frs) (List.length words)) as [E|E].
  - split; [discriminate|]. intros [H _]. contradiction.
  - rewrite <- match_by_text_failure.
    destruct (Nat.eqb_spec (List.length (match_by_text frs words)) (List.length frs)).
    + split; [discriminate|]. intros [_ H]. contradiction.
    + split; auto.
Qed.

Lemma matcher_recovery_Some (frs : list (fragment num)) (words ws : list (word num)) :
  List.length frs <> List.length words ->
  (matcher frs words = Some ws <-> Forall2 (first_equal_word words) frs ws).
Proof.
  intros E. unfold matcher.
  destruct (Nat.eqb_spec (List.length frs) (List.length words)); [contradiction|].
  destruct (Nat.eqb_spec (List.length (match_by_text frs words)) (List.length frs)) as [L|L].
  - apply match_by_text_complete in L. split.
    + intros [= <-]. exact L.
    + intros H. f_equal. clear E n.
      revert H L. generalize (List.map snd (match_by_text frs words)) as ms. revert ws.
      induction frs as [|f frs IH]; intros ws ms H L; inversion H; inversion L; subst; [reflexivity|].
      f_equal; [eapply first_equal_word_unique; eassumption|]. eapply IH; eassumption.
  - split; [discriminate|]. intros H. exfalso. apply L. clear L E n.
    revert ws H. induction frs as [|f frs IH]; intros ws H; [reflexivity|].
    inversion H as [|? w ? ws' Hw Hrest]; subst. cbn [match_by_text].
    apply first_match_Some in Hw. rewrite Hw. cbn [List.length]. f_equal. eapply IH; eassumption.
Qed.

End Matching.

(** ** Claims on the matcher and on the redistribution *)




(** C2 as stated fails: a first begin of 0.0005 is written back as 0.001,
    another text and another number. *)
Lemma first_begin_is_rounded :
  matcher (num:=float) (fragments half_millis_sync) (extract_words_with_svaras agni_line)
  = Some (extract_words_with_svaras agni_line) /\
  List.map begin (fragments (num:=float) half_millis_sync) = [SText (py "0.0005")] /\
  match adjust_timing (Nm:=binary64) half_millis_sync (extract_words_with_svaras agni_line) with
  | Ok out => List.map begin (fragments out)
  | Raise _ => []
  end = [SText (py "0.001")] /\
  float_of (Nm:=binary64) (SText (py "0.0005")) = Ok (Binary64.of_decimal false 5 4) /\
  float_of (Nm:=binary64) (SText (py "0.001")) = Ok (Binary64.of_decimal false 1 3) /\
  PrimFloat.eqb (Binary64.of_decimal false 5 4) (Binary64.of_decimal false 1 3) = false.
Proof. repeat split; vm_compute; reflexivity. Qed.

Section Batch.
Context {num : Type} {Nm : Number num}.








End Batch.

Lemma process_verse_loaded {num : Type} {Nm : Number num}
      (lines : list line) (sync_data : sync_map num) :
  process_verse (loaded lines sync_data) =
  match adjust_timing sync_data (extract_words_with_svaras lines) with
  | Ok adjusted_sync => (true, Saved adjusted_sync)
  | Raise e => (false, Failed e)
  end.
Proof.
  unfold process_verse, loaded.
  cbn [load_verse_data load_sync_data output_writable bind samhita_lines].
  destruct (adjust_timing sync_data (extract_words_with_svaras lines)); reflexivity.
Qed.



(** C4 as stated fails: the fragment "agni" has no word among "ile",
    "deva", so the map comes back as it is and is saved, and its end "soon"
    then makes the comparison of [main] raise [ValueError]: the batch ends
    before its second verse. *)
Lemma match_failure_can_end_the_batch :
  matcher (num:=float) (fragments untimed_sync) (extract_words_with_svaras other_lines) = None /\
  adjust_timing (Nm:=binary64) untimed_sync (extract_words_with_svaras other_lines)
  = Ok untimed_sync /\
  process_verse (Nm:=binary64) (loaded other_lines untimed_sync) = (true, Saved untimed_sync) /\
  main (Nm:=binary64) [loaded other_lines untimed_sync; loaded agni_lines agni_sync]
  = Raise ValueError.
Proof. repeat split; vm_compute; reflexivity. Qed.




(** C3, as the code has it. When the counts differ, the matcher succeeds
    with the words [ws] exactly when every fragment, in order, is paired
    with the first word of the whole word list whose stripped clean text is
    the fragment's stripped text (a word may serve several fragments), and
    fails exactly when some fragment has no such word. For the fragments
    "agni", "ile" and words of clean texts "agni", "puro", "hitam", "ile"
    the result is the first and the fourth word. *)
Theorem recovery_pairs_first_equal_words :
  forall (num : Type) (Nm : Number num) (frs : list (fragment num)) (words : list (word num)),
    List.length frs <> List.length words ->
    (forall ws, matcher frs words = Some ws <-> Forall2 (first_equal_word words) frs ws) /\
    (matcher frs words = None <-> exists frag, In frag frs /\ no_equal_word words frag) /\
    (forall f0 f1 w0 w1 w2 w3,
        frs = [f0; f1] -> words = [w0; w1; w2; w3] ->
        List.map frag_text frs = [py "agni"; py "ile"] ->
        List.map clean_text words = [py "agni"; py "puro"; py "hitam"; py "ile"] ->
        matcher frs words = Some [w0; w3]).
Proof.
  intros num Nm frs words Hlen. split; [|split].
  - intros ws. now apply matcher_recovery_Some.
  - rewrite matcher_None. tauto.
  - intros f0 f1 w0 w1 w2 w3 -> -> Hf Hw.
    injection Hf as Hf0 Hf1. injection Hw as Hw0 Hw1 Hw2 Hw3.
    unfold matcher. cbn [List.length Nat.eqb match_by_text first_match].
    rewrite Hf0, Hf1, Hw0, Hw1, Hw2, Hw3.
    vm_compute. reflexivity.
Qed.

Lemma recovery_pairs_first_equal_words_witness :
  matcher (num:=float) (fragments agni_sync) (extract_words_with_svaras agni_lines)
  = Some [extract_svara_info (py "agni"); extract_svara_info (py "ile")].
Proof.
  refine (proj2 (proj2 (recovery_pairs_first_equal_words float binary64 (fragments agni_sync)
                          (extract_words_with_svaras agni_lines) _))
            (plain_fragment "0.000" "1.000" "agni") (plain_fragment "1.000" "2.000" "ile")
            (extract_svara_info (py "agni")) (extract_svara_info (py "puro"))
            (extract_svara_info (py "hitam")) (extract_svara_info (py "ile")) _ _ _ _).
  - vm_compute. discriminate.
  - reflexivity.
  - vm_compute. reflexivity.
  - vm_compute. reflexivity.
  - vm_compute. reflexivity.
Defined.

(** C3 as stated fails: two fragments "ile", "ile" against the single word
    "ile". The code pairs both fragments with that word and goes on to
    adjust; a matcher that consumes words finds none for the second
    fragment. *)
Lemma recovery_does_not_consume_words :
  List.length (fragments (num:=float) repeated_sync)
    <> List.length (extract_words_with_svaras (Nm:=binary64) repeated_lines) /\
  matcher (num:=float) (fragments repeated_sync) (extract_words_with_svaras repeated_lines)
  = Some [extract_svara_info (py "ile"); extract_svara_info (py "ile")] /\
  consuming_recovery (num:=float) (fragments repeated_sync)
    (extract_words_with_svaras repeated_lines) = None.
Proof.
  split; [vm_compute; discriminate|]. split; vm_compute; reflexivity.
Qed.

(** ** The boundaries of the fast path *)


Section Boundaries.
Context {num : Type} {Nm : Number num}.



Lemma redistribute_boundaries (pairs : list (fragment num * weight_info num)) :
  forall T W t out,
    redistribute T W t pairs = Ok out ->
    List.map (fun f => (begin f, end_ f)) out =
    List.map rendered (instants T W t (List.map (fun p => wi_total_weight (snd p)) pairs)).
Proof.
  induction pairs as [|[frag wi] rest IH]; intros T W t out H.
  - now injection H as <-.
  - cbn [redistribute] in H.
    bind_inv H. bind_inv H. bind_inv H. bind_inv H. injection H as <-.
    unfold divide in E1. destruct (is_zero W); [discriminate|]. injection E1 as <-.
    cbn [List.map instants snd begin end_]. f_equal. now apply IH.
Qed.

Lemma redistribute_Ok (pairs : list (fragment num * weight_info num)) :
  forall T W t,
    Forall timed (List.map fst pairs) -> is_zero W = false ->
    exists out, redistribute T W t pairs = Ok out.
Proof.
  induction pairs as [|[frag wi] rest IH]; intros T W t Hf Hz.
  - now exists [].
  - inversion Hf as [|? ? (b & e & Hb & He) Hrest]; subst.
    cbn [redistribute]. rewrite Hb, He. cbn [bind]. unfold divide. rewrite Hz. cbn [bind].
    destruct (IH T W (add t (mul T (div (wi_total_weight wi) W))) Hrest Hz) as (out & ->).
    cbn [bind]. eauto.
Qed.

Lemma word_weights_from_weights (pairs : list (fragment num * word num)) :
  forall i,
    List.map wi_total_weight (word_weights_from i pairs) = List.map (fun p => word_weight (snd p)) pairs.
Proof.
  induction pairs as [|[f w] ps IH]; intros i; [reflexivity|].
  cbn [word_weights_from List.map snd]. f_equal. apply IH.
Qed.

Lemma map_fst_combine {A B : Type} (l : list A) (l' : list B) :
  List.length l = List.length l' -> List.map fst (combine l l') = l.
Proof.
  revert l'. induction l as [|a l IH]; intros [|b l'] H; try discriminate; [reflexivity|].
  cbn. f_equal. apply IH. now injection H.
Qed.

(** What [adjust_timing] returns on the fast path when every timestamp is
    a number and the total weight is not zero. *)
Lemma adjust_timing_boundaries (sync_data : sync_map num) (words : list (word num))
      (first : fragment num) (rest : list (fragment num)) (b l : num) :
  fragments sync_data = first :: rest ->
  List.length words = List.length (fragments sync_data) ->
  Forall timed (fragments sync_data) ->
  float_of (begin first) = Ok b ->
  float_of (end_ (last (fragments sync_data) first)) = Ok l ->
  is_zero (total_weight (fragments sync_data) words) = false ->
  exists out,
    adjust_timing sync_data words = Ok out /\
    boundaries out =
    List.map rendered
      (instants (sub l b) (total_weight (fragments sync_data) words) b
         (List.map word_weight words)).
Proof.
  intros F L Ht Hb Hl Hz.
  unfold adjust_timing, matcher. rewrite L, Nat.eqb_refl.
  unfold adjust_matched. rewrite F in *. rewrite Hl. cbn [bind]. rewrite Hb. cbn [bind].
  unfold total_weight in Hz.
  set (ww := word_weights_from 0 (combine (first :: rest) words)) in *.
  assert (Lw : List.length (first :: rest) = List.length ww).
  { unfold ww. rewrite word_weights_from_length, length_combine, L. now rewrite Nat.min_id. }
  destruct (redistribute_Ok (combine (first :: rest) ww) (sub l b)
              (sum (List.map wi_total_weight ww)) b) as (out & Hout).
  - now rewrite (map_fst_combine _ _ Lw).
  - assumption.
  - rewrite Hout. cbn [bind]. eexists. split; [reflexivity|].
    unfold boundaries. cbn [fragments].
    rewrite (redistribute_boundaries _ _ _ _ _ Hout). do 2 f_equal.
    unfold total_weight. fold ww.
    rewrite (map_combine_snd wi_total_weight _ _ Lw).
    unfold ww. rewrite word_weights_from_weights.
    apply (map_combine_snd word_weight). now rewrite L.
Qed.

End Boundaries.

Lemma total_weight_sum {num : Type} {Nm : Number num}
      (frs : list (fragment num)) (words : list (word num)) :
  List.length words = List.length frs ->
  total_weight frs words = sum (List.map word_weight words).
Proof.
  intros L. unfold total_weight. rewrite word_weights_from_weights.
  now rewrite (map_combine_snd word_weight frs words (eq_sym L)).
Qed.

(** C7. Three matched pairs of weights 0.3, 0.5 and 0.2 over the span from
    1.0 to 4.0 get the boundaries [1.000, 1.900], [1.900, 3.400] and
    [3.400, 4.000]: on binary64 for the three words of 3, 5 and 2
    characters, and in exact arithmetic for any three fragments and words
    with these weights and this span. *)
Theorem redistribution_example :
  match adjust_timing (Nm:=binary64) three_fragments three_words with
  | Ok out => boundaries out
  | Raise _ => []
  end
  = [(SText (py "1.000"), SText (py "1.900"));
     (SText (py "1.900"), SText (py "3.400"));
     (SText (py "3.400"), SText (py "4.000"))]
  /\
  forall (sync_data : sync_map Qc) (words : list (word Qc))
         (first : fragment Qc) (rest : list (fragment Qc)),
    fragments sync_data = first :: rest ->
    List.length (fragments sync_data) = 3 ->
    Forall timed (fragments sync_data) ->
    float_of (begin first) = Ok (Exact.of_decimal false 10 1) ->
    float_of (end_ (last (fragments sync_data) first)) = Ok (Exact.of_decimal false 40 1) ->
    List.map word_weight words =
      [Exact.of_decimal false 3 1; Exact.of_decimal false 5 1; Exact.of_decimal false 2 1] ->
    exists out,
      adjust_timing sync_data words = Ok out /\
      boundaries out
      = [(SText (py "1.000"), SText (py "1.900"));
         (SText (py "1.900"), SText (py "3.400"));
         (SText (py "3.400"), SText (py "4.000"))].
Proof.
  split; [vm_compute; reflexivity|].
  intros sync_data words first rest F L3 Ht Hb Hl Hw.
  assert (L : List.length words = List.length (fragments sync_data)).
  { rewrite L3, <- (length_map word_weight), Hw. reflexivity. }
  destruct (adjust_timing_boundaries sync_data words first rest _ _ F L Ht Hb Hl)
    as (out & Hout & Hbd).
  - rewrite (total_weight_sum _ _ L), Hw. vm_compute. reflexivity.
  - exists out. split; [assumption|].
    rewrite Hbd, (total_weight_sum _ _ L), Hw. vm_compute. reflexivity.
Qed.

Lemma redistribution_example_witness :
  exists out,
    adjust_timing (Nm:=exact) three_fragments three_words = Ok out /\
    boundaries out
    = [(SText (py "1.000"), SText (py "1.900"));
       (SText (py "1.900"), SText (py "3.400"));
       (SText (py "3.400"), SText (py "4.000"))].
Proof.
  refine (proj2 redistribution_example three_fragments three_words
            (plain_fragment "1.000" "2.000" "abc")
            [plain_fragment "2.000" "3.000" "abcde"; plain_fragment "3.000" "4.000" "ab"]
            eq_refl eq_refl _ _ _ _).
  - repeat constructor; eexists; eexists; split; vm_compute; reflexivity.
  - change (Ok (Exact.of_decimal false 1000 3) = Ok (Exact.of_decimal false 10 1)).
    f_equal. apply Qc_is_canon. reflexivity.
  - change (Ok (Exact.of_decimal false 4000 3) = Ok (Exact.of_decimal false 40 1)).
    f_equal. apply Qc_is_canon. reflexivity.
  - change ([word_weight (extract_svara_info (py "abc"));
             word_weight (extract_svara_info (py "abcde"));
             word_weight (extract_svara_info (py "ab"))]
            = [Exact.of_decimal false 3 1; Exact.of_decimal false 5 1;
               Exact.of_decimal false 2 1]).
    repeat f_equal; apply Qc_is_canon; reflexivity.
Defined.

(** ** The weight of a word *)

Lemma count_svaras_marker_counts (raw : str) :
  count_svaras raw =
  counts_of (marker_count 48%N raw) (marker_count 49%N raw)
            (marker_count 50%N raw) (marker_count 53%N raw).
Proof.
  rewrite count_svaras_counts.
  now rewrite !cnt_finditer by reflexivity.
Qed.



Lemma exact_svara_weight (c0 c1 c2 c5 : Z) :
  calculate_svara_weight (Nm:=exact) (counts_of c0 c1 c2 c5) =
  (Q2Qc 0 * Q2Qc (inject_Z c0) + Q2Qc 0 * Q2Qc (inject_Z c1)
   + Q2Qc (8 # 100) * Q2Qc (inject_Z c2) + Q2Qc (20 # 100) * Q2Qc (inject_Z c5))%Qc.
Proof.
  unfold calculate_svara_weight, counts_of.
  cbn [fold_left fst snd]. change (py "0") with [48%N]. change (py "1") with [49%N].
  change (py "2") with [50%N]. change (py "5") with [53%N].
  change (dict_get SVARA_WEIGHTS [48%N] lit_0_0) with (Exact.of_decimal false 0 1).
  change (dict_get SVARA_WEIGHTS [49%N] lit_0_0) with (Exact.of_decimal false 0 1).
  change (dict_get SVARA_WEIGHTS [50%N] lit_0_0) with (Exact.of_decimal false 8 2).
  change (dict_get SVARA_WEIGHTS [53%N] lit_0_0) with (Exact.of_decimal false 20 2).
  change (@lit_0_0 Qc exact) with (Exact.of_decimal false 0 1).
  replace (Exact.of_decimal false 0 1) with (Q2Qc 0) by (apply Qc_is_canon; reflexivity).
  replace (Exact.of_decimal false 8 2) with (Q2Qc (8 # 100)) by (apply Qc_is_canon; reflexivity).
  replace (Exact.of_decimal false 20 2) with (Q2Qc (20 # 100)) by (apply Qc_is_canon; reflexivity).
  cbn [add mul of_int exact]. unfold Exact.of_int. ring.
Qed.


(** C6 as stated fails: the word "a{2}bc" has three clean characters and
    one circumflex, and its weight on binary64 is not the double 0.38. *)
Lemma example_word_does_not_weigh_0_38 :
  clean_text (extract_svara_info (Nm:=binary64) (py "a{2}bc")) = py "abc" /\
  svara_counts (extract_svara_info (Nm:=binary64) (py "a{2}bc")) = counts_of 0 0 1 0 /\
  PrimFloat.eqb (word_weight (Nm:=binary64) (extract_svara_info (py "a{2}bc")))
                (Binary64.of_decimal false 38 2) = false /\
  word_weight (Nm:=binary64) (extract_svara_info (py "a{2}bc"))
  = Binary64.of_decimal false 38000000000000006 17.
Proof. repeat split; vm_compute; reflexivity. Qed.

(** ** Marker stripping *)

(** C8. A string that contains no marker is its own clean text, both for
    [clean_svara_markers] and for [extract_svara_info]: nothing is removed
    and nothing is reordered. *)
Theorem clean_text_identity_without_markers :
  forall (num : Type) (Nm : Number num) (s : str),
    ~ has_marker s ->
    clean_svara_markers s = s /\ clean_text (extract_svara_info s) = s.
Proof.
  intros num Nm s H. split; apply sub_markers_clean; assumption.
Qed.

Lemma clean_text_identity_without_markers_witness :
  clean_svara_markers (py "agnim ile") = py "agnim ile" /\
  clean_text (extract_svara_info (Nm:=binary64) (py "agnim ile")) = py "agnim ile".
Proof.
  apply (clean_text_identity_without_markers float binary64 (py "agnim ile")).
  apply has_markerb_false. reflexivity.
Defined.

(** Conversely, a string that contains a marker is changed. *)
Lemma clean_text_changes_with_markers (s : str) :
  has_marker s -> clean_svara_markers s <> s.
Proof.
  intros H E. apply sub_markers_shrinks in H. unfold clean_svara_markers in E.
  rewrite E in H. lia.
Qed.

(** ** Markers with unknown codes *)

Lemma ascii_digit_is_decimal (d : char) :
  is_ascii_digit d = true -> is_unicode_decimal d = true.
Proof.
  unfold is_ascii_digit, is_unicode_decimal, decimal_blocks. intros H.
  apply andb_true_iff in H as [H1 H2].
  cbn [existsb]. rewrite H1. cbn [andb]. apply N.leb_le in H2.
  replace (N.ltb d (48 + 10)) with true by (symmetry; apply N.ltb_lt; lia).
  reflexivity.
Qed.

Lemma ascii_digit_not_lbrace (d : char) : is_ascii_digit d = true -> d <> lbrace.
Proof. intros H ->. discriminate. Qed.

Lemma finditer_cons3 (a d r : char) (rest : str) :
  finditer_svara (a :: d :: r :: rest) =
  if N.eqb a lbrace && is_unicode_decimal d && N.eqb r rbrace
  then d :: finditer_svara rest
  else finditer_svara (d :: r :: rest).
Proof. reflexivity. Qed.

Lemma finditer_skip_all (l post : str) :
  Forall (fun c => c <> lbrace) l ->
  finditer_svara (l ++ post) = finditer_svara post.
Proof.
  induction 1 as [|c l Hc _ IH]; [reflexivity|].
  cbn [app]. now rewrite finditer_skip.
Qed.


Lemma sub_markers_marker (ds post : str) :
  ds <> [] -> forallb is_ascii_digit ds = true ->
  sub_markers (marker ds ++ post) = sub_markers post.
Proof.
  intros Hne Hd.
  assert (E : marker ds ++ post = lbrace :: (ds ++ rbrace :: post)).
  { unfold marker. cbn [app]. now rewrite <- app_assoc. }
  rewrite E, sub_markers_cons, <- E, (marker_len_marker ds post Hne Hd), E.
  f_equal. change (lbrace :: ds ++ rbrace :: post) with ((lbrace :: ds) ++ rbrace :: post).
  replace (List.length ds + 2) with (List.length ((lbrace :: ds) ++ [rbrace]))
    by (rewrite length_app; cbn; lia).
  replace ((lbrace :: ds) ++ rbrace :: post) with (((lbrace :: ds) ++ [rbrace]) ++ post)
    by (now rewrite <- app_assoc).
  now rewrite skipn_app, skipn_all, Nat.sub_diag.
Qed.





(** C9 as stated fails. The counting pattern reads [\d] where the stripping
    pattern reads [[0-9]]: a brace group around a decimal digit that is not
    ASCII (here the Devanagari digit one, U+0967) is a match of the first,
    with a code that no counter knows, and no marker for the second, which
    leaves it in the clean text: the word has seven characters instead of
    four and weighs more than "agni". *)
Lemma non_ascii_digit_group :
  finditer_svara (py "ag" ++ lbrace :: 2407%N :: rbrace :: py "ni") = [2407%N] /\
  known_code [2407%N] = false /\
  count_svaras (py "ag" ++ lbrace :: 2407%N :: rbrace :: py "ni") = counts_of 0 0 0 0 /\
  clean_text (extract_svara_info (Nm:=binary64)
                (py "ag" ++ lbrace :: 2407%N :: rbrace :: py "ni"))
  = py "ag" ++ lbrace :: 2407%N :: rbrace :: py "ni" /\
  word_weight (Nm:=binary64)
    (extract_svara_info (py "ag" ++ lbrace :: 2407%N :: rbrace :: py "ni"))
  = add (mul (of_int 7) lit_0_1) lit_0_0 /\
  word_weight (Nm:=binary64) (extract_svara_info (py "agni"))
  = add (mul (of_int 4) lit_0_1) lit_0_0 /\
  PrimFloat.ltb (word_weight (Nm:=binary64) (extract_svara_info (py "agni")))
    (word_weight (Nm:=binary64)
       (extract_svara_info (py "ag" ++ lbrace :: 2407%N :: rbrace :: py "ni"))) = true.
Proof. repeat split; vm_compute; reflexivity. Qed.

(** ** The two tokenizers *)

Section Tokenizers.
Context {num : Type} {Nm : Number num}.

Lemma clean_texts_of_line (s : str) :
  List.map clean_text (List.map extract_svara_info (split s)) = List.map sub_markers (split s).
Proof. rewrite map_map. reflexivity. Qed.

Lemma extract_words_app (l1 l2 : list line) :
  extract_words_with_svaras (l1 ++ l2) =
  extract_words_with_svaras l1 ++ extract_words_with_svaras l2.
Proof. unfold extract_words_with_svaras. apply flat_map_app. Qed.

Lemma extract_words_plain_only (lines : list line) :
  extract_words_with_svaras lines = extract_words_with_svaras (filter plain_line lines).
Proof.
  induction lines as [|l lines IH]; [reflexivity|].
  change (l :: lines) with ([l] ++ lines). rewrite extract_words_app, IH.
  destruct l; cbn [app filter plain_line]; [|reflexivity|reflexivity].
  change (LStr s :: filter plain_line lines) with ([LStr s] ++ filter plain_line lines).
  now rewrite extract_words_app.
Qed.

Lemma words_of_string_line (s : str) :
  filter nonempty (List.map clean_text (extract_words_with_svaras [LStr s])) = line_words s.
Proof.
  unfold extract_words_with_svaras. cbn [flat_map]. rewrite app_nil_r.
  now rewrite clean_texts_of_line, line_words_split.
Qed.

Lemma words_of_parts (parts : list part) :
  filter nonempty
    (List.map clean_text (extract_words_with_svaras (flatten_lines [LList parts])))
  = flat_map (fun p => match p with PStr s => line_words s | POther => [] end) parts.
Proof.
  unfold flatten_lines. cbn [flat_map]. rewrite app_nil_r.
  induction parts as [|p parts IH]; [reflexivity|].
  cbn [flat_map]. destruct p as [s|]; [|exact IH].
  rewrite extract_words_app, map_app, filter_app, IH.
  now rewrite words_of_string_line.
Qed.

Lemma flatten_lines_cons (l : line) (lines : list line) :
  flatten_lines (l :: lines) = flatten_lines [l] ++ flatten_lines lines.
Proof. unfold flatten_lines. cbn [flat_map]. now rewrite app_nil_r. Qed.

Lemma text_words_cons (l : line) (lines : list line) :
  extract_words_from_samhita (l :: lines) =
  extract_words_from_samhita [l] ++ extract_words_from_samhita lines.
Proof. unfold extract_words_from_samhita. cbn [flat_map]. now rewrite app_nil_r. Qed.

Lemma text_words_of_flattened (lines : list line) :
  extract_words_from_samhita lines =
  filter nonempty (List.map clean_text (extract_words_with_svaras (flatten_lines lines))).
Proof.
  induction lines as [|l lines IH]; [reflexivity|].
  rewrite (flatten_lines_cons l lines), (text_words_cons l lines).
  rewrite extract_words_app, map_app, filter_app, <- IH.
  f_equal. destruct l as [s|parts|].
  - change (flatten_lines [LStr s]) with [LStr s]. rewrite words_of_string_line.
    unfold extract_words_from_samhita. cbn [flat_map]. now rewrite app_nil_r.
  - rewrite words_of_parts.
    unfold extract_words_from_samhita. cbn [flat_map]. now rewrite app_nil_r.
  - reflexivity.
Qed.

Lemma flatten_plain_lines (lines : list line) :
  forallb plain_line lines = true -> flatten_lines lines = lines.
Proof.
  induction lines as [|l lines IH]; [reflexivity|].
  cbn [forallb]. intros H. apply andb_true_iff in H as [Hl H].
  destruct l; try discriminate.
  unfold flatten_lines in *. cbn [flat_map app]. f_equal. now apply IH.
Qed.

End Tokenizers.

Lemma filter_nonempty_id (l : list str) :
  l = filter nonempty l <-> forallb nonempty l = true.
Proof.
  induction l as [|x l IH]; [split; reflexivity|].
  cbn [filter forallb]. destruct (nonempty x) eqn:E; cbn [andb].
  - rewrite <- IH. split; [now intros [= H]|now intros <-].
  - split; [|discriminate]. intros H.
    pose proof (filter_length_le nonempty l) as L.
    apply (f_equal (@List.length str)) in H. cbn [List.length] in H. lia.
Qed.

(** C10. [extract_words_with_svaras] reads the string lines only;
    [extract_words_from_samhita] also reads the strings inside list lines.
    The words of the second are the non-empty clean texts of the first on
    the verse with its list lines unfolded; for a verse of plain strings the
    two word sequences are equal exactly when no token of the verse is made
    of markers only. *)
Theorem tokenizers_agree_up_to_empty_words :
  forall (num : Type) (Nm : Number num) (lines : list line),
    extract_words_with_svaras lines = extract_words_with_svaras (filter plain_line lines) /\
    extract_words_from_samhita lines
    = filter nonempty
        (List.map clean_text (extract_words_with_svaras (flatten_lines lines))) /\
    (forallb plain_line lines = true ->
     extract_words_from_samhita lines
     = filter nonempty (List.map clean_text (extract_words_with_svaras lines)) /\
     (List.map clean_text (extract_words_with_svaras lines) = extract_words_from_samhita lines
      <-> forallb nonempty (List.map clean_text (extract_words_with_svaras lines)) = true)).
Proof.
  intros num Nm lines. split; [apply extract_words_plain_only|].
  split; [apply text_words_of_flattened|].
  intros Hp.
  assert (E : extract_words_from_samhita lines
              = filter nonempty (List.map clean_text (extract_words_with_svaras lines))).
  { rewrite text_words_of_flattened. now rewrite (flatten_plain_lines lines Hp). }
  split; [exact E|]. rewrite E. apply filter_nonempty_id.
Qed.

Lemma tokenizers_agree_up_to_empty_words_witness :
  extract_words_from_samhita agni_lines
  = List.map clean_text (extract_words_with_svaras (Nm:=binary64) agni_lines).
Proof.
  destruct (tokenizers_agree_up_to_empty_words float binary64 agni_lines)
    as (_ & _ & H).
  destruct (H eq_refl) as (_ & Hiff).
  symmetry. apply Hiff. reflexivity.
Defined.

(** The two tokenizers on a verse of plain strings with a token made of a
    marker only: three words, one of them empty, against two; and on a
    verse with a list line: one word against two. *)
Lemma tokenizers_differ_on_marker_token :
  forallb plain_line marker_token_lines = true /\
  List.map clean_text (extract_words_with_svaras (Nm:=binary64) marker_token_lines)
  = [py "a"; []; py "b"] /\
  extract_words_from_samhita marker_token_lines = [py "a"; py "b"] /\
  List.map clean_text (extract_words_with_svaras (Nm:=binary64) nested_lines) = [py "agni"] /\
  extract_words_from_samhita nested_lines = [py "agni"; py "ile"].
Proof. repeat split; vm_compute; reflexivity. Qed.


(** * Further properties of the scripts *)

(** ** More on [adjust_timing] *)

Section Adjustment.
Context {num : Type} {Nm : Number num}.

Lemma matcher_empty (words : list (word num)) : matcher [] words = Some [] \/ matcher [] words = Some words.
Proof.
  unfold matcher. destruct (List.length (@nil (fragment num)) =? List.length words); [now right|now left].
Qed.

Lemma redistribute_inv (pairs : list (fragment num * weight_info num)) :
  forall T W t out,
    redistribute T W t pairs = Ok out ->
    Forall timed (List.map fst pairs) /\ (pairs <> [] -> is_zero W = false).
Proof.
  induction pairs as [|[frag wi] rest IH]; intros T W t out H.
  - split; [constructor|congruence].
  - cbn [redistribute] in H.
    bind_inv H. bind_inv H. bind_inv H. bind_inv H. injection H as <-.
    destruct (IH _ _ _ _ E2) as (Ht & _).
    split.
    + constructor; [exists v, v0; auto|exact Ht].
    + intros _. unfold divide in E1. destruct (is_zero W); [discriminate|reflexivity].
Qed.

Lemma word_weights_length (frs : list (fragment num)) (paired : list (word num)) :
  List.length paired = List.length frs ->
  List.length frs = List.length (word_weights_from 0 (combine frs paired)).
Proof.
  intros L. rewrite word_weights_from_length, length_combine, L. now rewrite Nat.min_id.
Qed.

(** What a run of [adjust_matched] that returns went through. *)
Lemma adjust_matched_inv (frs : list (fragment num)) (paired : list (word num))
      (out : sync_map num) :
  adjust_matched frs paired = Ok out ->
  exists first rest b l,
    frs = first :: rest /\
    float_of (begin first) = Ok b /\
    float_of (end_ (last frs first)) = Ok l /\
    redistribute (sub l b) (total_weight frs paired) b
      (combine frs (word_weights_from 0 (combine frs paired))) = Ok (fragments out).
Proof.
  unfold adjust_matched. destruct frs as [|first rest]; [discriminate|].
  intros H. bind_inv H. bind_inv H. bind_inv H. bind_inv H. injection H as <-.
  rewrite E0 in E1. injection E1 as <-.
  exists first, rest, v0, v. repeat split; assumption.
Qed.


Lemma redistribute_annotated (frs : list (fragment num)) :
  forall paired i T W t out,
    redistribute T W t (combine frs (word_weights_from i (combine frs paired))) = Ok out ->
    Forall2 (annotated T W) (combine frs paired) out.
Proof.
  induction frs as [|frag frs IH]; intros paired i T W t out H.
  - injection H as <-. constructor.
  - destruct paired as [|w paired]; [injection H as <-; constructor|].
    cbn [combine word_weights_from redistribute] in H.
    bind_inv H. bind_inv H. bind_inv H. bind_inv H. injection H as <-.
    unfold divide in E1. destruct (is_zero W); [discriminate|]. injection E1 as <-.
    constructor; [|now apply (IH _ _ _ _ _ _ E2)].
    unfold annotated.
    cbn [fst snd lines lines_with_svaras svara_info weigh wi_text_with_svaras].
    repeat split.
    eexists _, v, v0. cbn [counts bonus original_duration adjusted_duration].
    repeat split; assumption.
Qed.

End Adjustment.

(** X1. A sync map without fragments makes [adjust_timing] raise
    [IndexError] at [fragments[-1]], whatever the words are: without words
    the counts agree, and with words the recovery path has no fragment to
    pair, which counts as all of them paired. [process_verse] reports the
    verse as failed. *)
Theorem empty_sync_map_raises_IndexError :
  forall (num : Type) (Nm : Number num) (sync_data : sync_map num) (words : list (word num)),
  fragments sync_data = [] ->
  adjust_timing sync_data words = Raise IndexError /\
  forall lines, process_verse (loaded lines sync_data) = (false, Failed IndexError).
Proof.
  intros num Nm sync_data words F.
  assert (H : forall ws, adjust_timing sync_data ws = Raise IndexError).
  { intros ws. unfold adjust_timing. rewrite F.
    destruct (matcher_empty ws) as [-> | ->]; reflexivity. }
  split; [apply H|]. intros lines. rewrite process_verse_loaded. now rewrite H.
Qed.


(** X3. Every adjusted fragment keeps the [lines] of the fragment it
    comes from and carries the annotated text, the counts and the bonus of
    the word it is paired with, the original duration [end - begin] of its
    fragment and the share [T * (w / W)] of its word as adjusted duration. *)
Theorem adjusted_fragments_are_annotated :
  forall (num : Type) (Nm : Number num) (sync_data : sync_map num)
         (words paired : list (word num)) (out : sync_map num),
  matcher (fragments sync_data) words = Some paired ->
  adjust_timing sync_data words = Ok out ->
  exists first b l,
    hd_error (fragments sync_data) = Some first /\
    float_of (begin first) = Ok b /\
    float_of (end_ (last (fragments sync_data) first)) = Ok l /\
    Forall2 (annotated (sub l b) (total_weight (fragments sync_data) paired))
            (combine (fragments sync_data) paired) (fragments out).
Proof.
  intros num Nm sync_data words paired out Hm H. unfold adjust_timing in H. rewrite Hm in H.
  destruct (adjust_matched_inv _ _ _ H) as (first & rest & b & l & F & Hb & Hl & R).
  exists first, b, l. rewrite F in *. repeat split; try assumption.
  now apply (redistribute_annotated _ _ _ _ _ _ _ R).
Qed.

Section Instants.
Context {num : Type} {Nm : Number num}.



Lemma matcher_incl (frs : list (fragment num)) (words paired : list (word num)) :
  matcher frs words = Some paired -> incl paired words.
Proof.
  unfold matcher. destruct (List.length frs =? List.length words).
  - intros [= <-]. apply incl_refl.
  - destruct (List.length (match_by_text frs words) =? List.length frs); [|discriminate].
    intros [= <-]. clear. induction frs as [|f frs IH]; [intros w []|].
    cbn [match_by_text]. destruct (first_match (frag_text f) words) as [w|] eqn:E; [|exact IH].
    cbn [List.map snd]. intros x [<-|Hx]; [|now apply IH].
    apply first_match_Some in E as (before & after & -> & _). apply in_elt.
Qed.

End Instants.

Lemma last_map {A B : Type} (f : A -> B) (l : list A) (d : A) (d' : B) :
  l <> [] -> last (List.map f l) d' = f (last l d).
Proof.
  induction l as [|a l IH]; [congruence|]. intros _.
  destruct l as [|a' l]; [reflexivity|]. apply IH. discriminate.
Qed.


(** ** Writing a timestamp and reading it back *)

Lemma uint_chars_digits (d : Decimal.uint) : forallb is_ascii_digit (Fmt.uint_chars d) = true.
Proof. induction d; cbn [Fmt.uint_chars forallb]; try rewrite IHd; reflexivity. Qed.

Lemma digits_value_acc (d : Decimal.uint) :
  forall acc : positive,
    digits_value (Npos acc) (Fmt.uint_chars d) = Npos (Pos.of_uint_acc d acc).
Proof.
  induction d; intros acc; cbn [Fmt.uint_chars digits_value Pos.of_uint_acc];
    try reflexivity;
    match goal with
    | |- digits_value ?a _ = _ =>
        match goal with
        | |- _ = N.pos (Pos.of_uint_acc _ ?p) =>
            replace a with (Npos p) by lia
        end
    end; apply IHd.
Qed.

Lemma digits_value_uint (d : Decimal.uint) :
  digits_value 0 (Fmt.uint_chars d) = N.of_uint d.
Proof.
  unfold N.of_uint.
  induction d; cbn [Fmt.uint_chars digits_value Pos.of_uint]; try reflexivity;
    try (exact IHd); apply digits_value_acc.
Qed.

Lemma digits_value_N_chars (n : N) : digits_value 0 (Fmt.N_chars n) = n.
Proof. unfold Fmt.N_chars. rewrite digits_value_uint. apply DecimalN.Unsigned.of_to. Qed.

Lemma N_chars_nonempty (n : N) : Fmt.N_chars n <> [].
Proof.
  unfold Fmt.N_chars. intros E.
  pose proof (digits_value_N_chars n) as V. unfold Fmt.N_chars in V. rewrite E in V.
  cbn in V. subst n. discriminate E.
Qed.

Lemma digits_value_app (a b : str) :
  forall acc, digits_value acc (a ++ b) = digits_value (digits_value acc a) b.
Proof. induction a as [|c a IH]; intros acc; [reflexivity|]. cbn [app digits_value]. apply IH. Qed.

Lemma frac3_digits (n : N) : (n < 1000)%N -> forallb is_ascii_digit (Fmt.frac3 n) = true.
Proof.
  intros H. unfold Fmt.frac3, is_ascii_digit. cbn [forallb].
  assert (n / 100 < 10)%N by (apply N.Div0.div_lt_upper_bound; lia).
  assert ((n / 10) mod 10 < 10)%N by (apply N.mod_lt; lia).
  assert (n mod 10 < 10)%N by (apply N.mod_lt; lia).
  repeat (apply andb_true_intro; split); try reflexivity; apply N.leb_le;
    try apply N.le_add_r; lia.
Qed.

Lemma digits_value_frac3 (acc n : N) :
  (n < 1000)%N -> digits_value acc (Fmt.frac3 n) = (acc * 1000 + n)%N.
Proof.
  intros H. unfold Fmt.frac3. cbn [digits_value].
  assert (A : forall a : N, (48 + a - 48 = a)%N) by (intros; lia).
  rewrite !A.
  pose proof (N.div_mod n 10 ltac:(lia)) as E1.
  pose proof (N.div_mod (n / 10) 10 ltac:(lia)) as E2.
  replace (n / 10 / 10)%N with (n / 100)%N in E2
    by (rewrite N.Div0.div_div; reflexivity).
  revert E1 E2.
  generalize (n / 100)%N, ((n / 10) mod 10)%N, (n mod 10)%N, (n / 10)%N.
  intros a b c d E1 E2. lia.
Qed.

Lemma digit_run_all (ds : str) : forallb is_ascii_digit ds = true -> digit_run ds = List.length ds.
Proof.
  induction ds as [|c ds IH]; [reflexivity|]. cbn [forallb digit_run List.length].
  intros H. apply andb_true_iff in H as (-> & H). now rewrite IH.
Qed.

Lemma numeric_char (c : char) :
  numeric c = true ->
  N.ltb c 127 = true /\ is_ascii_space c = false /\ N.eqb c underscore = false.
Proof.
  unfold numeric, is_ascii_digit, is_ascii_space, underscore. intros H.
  assert (R : (48 <= c <= 57 \/ c = 46 \/ c = 45)%N).
  { apply orb_true_iff in H as [H|H]; [apply orb_true_iff in H as [H|H]|].
    - apply andb_true_iff in H as (H1 & H2). apply N.leb_le in H1, H2. lia.
    - apply N.eqb_eq in H. lia.
    - apply N.eqb_eq in H. lia. }
  split; [apply N.ltb_lt; lia|]. split.
  - apply orb_false_iff. split; [|apply N.eqb_neq; lia].
    apply andb_false_iff.
    destruct (N.leb_spec 9 c); [right; apply N.leb_gt; lia|now left].
  - apply N.eqb_neq. lia.
Qed.

Lemma digits_numeric (ds : str) : forallb is_ascii_digit ds = true -> forallb numeric ds = true.
Proof.
  induction ds as [|c ds IH]; [reflexivity|]. cbn [forallb]. intros H.
  apply andb_true_iff in H as (Hc & H). unfold numeric at 1. now rewrite Hc, IH.
Qed.

Lemma transform_numeric (s : str) : forallb numeric s = true -> transform s = Some s.
Proof.
  induction s as [|c s IH]; [reflexivity|]. cbn [forallb transform]. intros H.
  apply andb_true_iff in H as (Hc & H). rewrite (IH H).
  unfold to_ascii. now rewrite (proj1 (numeric_char c Hc)).
Qed.

Lemma skip_spaces_numeric (s : str) : forallb numeric s = true -> skip_spaces s = s.
Proof.
  destruct s as [|c s]; [reflexivity|]. cbn [forallb skip_spaces]. intros H.
  apply andb_true_iff in H as (Hc & _).
  now rewrite (proj1 (proj2 (numeric_char c Hc))).
Qed.

Lemma trim_numeric (s : str) : forallb numeric s = true -> trim s = s.
Proof.
  intros H. unfold trim. rewrite (skip_spaces_numeric s H).
  rewrite skip_spaces_numeric; [apply rev_involutive|].
  rewrite forallb_forall in *. intros c Hc. apply H. now apply in_rev.
Qed.

Lemma grouped_numeric (s : str) :
  forallb numeric s = true -> forall b, grouped b s = true.
Proof.
  induction s as [|c s IH]; intros H b; [reflexivity|]. cbn [forallb] in H.
  apply andb_true_iff in H as (Hc & H). cbn [grouped].
  rewrite (proj2 (proj2 (numeric_char c Hc))). now apply IH.
Qed.

Lemma ungroup_numeric (s : str) : forallb numeric s = true -> ungroup s = s.
Proof.
  induction s as [|c s IH]; [reflexivity|]. cbn [forallb]. intros H.
  apply andb_true_iff in H as (Hc & H). unfold ungroup in *. cbn [filter].
  rewrite (proj2 (proj2 (numeric_char c Hc))). cbn [negb]. now rewrite IH.
Qed.

Lemma forallb_app_true {A : Type} (f : A -> bool) (l l' : list A) :
  forallb f l = true -> forallb f l' = true -> forallb f (l ++ l') = true.
Proof. intros H H'. rewrite forallb_app, H, H'. reflexivity. Qed.

(** [float] reads a number written with its sign, its integer digits, a
    point and its fractional digits. *)
Lemma parse_float_written (neg : bool) (ip fp : str) :
  ip <> [] -> forallb is_ascii_digit ip = true -> forallb is_ascii_digit fp = true ->
  parse_float (Fmt.minus_sign neg ++ ip ++ [46%N] ++ fp)
  = Some (Decimal neg (digits_value 0 (ip ++ fp)) (0 - Z.of_nat (List.length fp))).
Proof.
  intros Hne Hip Hfp. unfold parse_float.
  assert (Hn : forallb numeric (Fmt.minus_sign neg ++ ip ++ [46%N] ++ fp) = true).
  { repeat apply forallb_app_true; try (now apply digits_numeric); [now destruct neg|reflexivity]. }
  rewrite (transform_numeric _ Hn), (trim_numeric _ Hn), (grouped_numeric _ Hn),
    (ungroup_numeric _ Hn).
  assert (Hs : signed (Fmt.minus_sign neg ++ ip ++ [46%N] ++ fp) = (neg, ip ++ [46%N] ++ fp)).
  { destruct neg; [reflexivity|]. cbn [Fmt.minus_sign app].
    destruct ip as [|c ip]; [congruence|]. cbn [app signed].
    cbn [forallb] in Hip. apply andb_true_iff in Hip as (Hc & _).
    unfold is_ascii_digit in Hc. apply andb_true_iff in Hc as (Hc1 & Hc2).
    apply N.leb_le in Hc1, Hc2.
    destruct (N.eqb_spec c 45); [lia|]. destruct (N.eqb_spec c 43); [lia|]. reflexivity. }
  rewrite Hs. unfold parse_number. cbn [app].
  replace (digit_run (ip ++ 46%N :: fp)) with (List.length ip)
    by (symmetry; apply (digit_run_app_stop ip fp 46%N Hip eq_refl)).
  rewrite firstn_app, Nat.sub_diag, firstn_all. cbn [firstn]. rewrite app_nil_r.
  rewrite skipn_app, Nat.sub_diag, skipn_all. cbn [skipn app N.eqb Pos.eqb].
  rewrite (digit_run_all fp Hfp), firstn_all, skipn_all. cbn [parse_exponent].
  destruct ip as [|c ip]; [congruence|]. reflexivity.
Qed.

Lemma millis_split (n : N) : (n / 1000 * 1000 + n mod 1000 = n)%N.
Proof.
  pose proof (N.div_mod n 1000 ltac:(lia)) as E. revert E.
  generalize (n / 1000)%N, (n mod 1000)%N. intros a b E. lia.
Qed.

(** What [float] reads in a number written by ['%.3f']. *)
Lemma parse_fmt3_nonneg (neg : bool) (q : Q) :
  parse_float (Fmt.minus_sign neg ++ Fmt.fmt3_nonneg q)
  = Some (Decimal neg (Fmt.millis q) (-3)).
Proof.
  unfold Fmt.fmt3_nonneg.
  assert (Hlt : (Fmt.millis q mod 1000 < 1000)%N) by (apply N.mod_lt; lia).
  rewrite (parse_float_written neg _ _ (N_chars_nonempty _) (uint_chars_digits _)
             (frac3_digits _ Hlt)).
  rewrite digits_value_app, digits_value_N_chars, (digits_value_frac3 _ _ Hlt).
  now rewrite millis_split.
Qed.

(** Every timestamp that [adjust_timing] writes on binary64 is read by
    [float], [nan] and [inf] included. *)
Lemma binary64_fmt3_readable (x : float) :
  exists y, float_of (Nm:=binary64) (SText (fmt3 x)) = Ok y.
Proof.
  unfold float_of. cbn [fmt3 binary64]. unfold Binary64.fmt3.
  destruct (Prim2SF x) as [neg|neg| |neg m e].
  - change (py "0.000") with (Fmt.fmt3_nonneg (0 # 1)).
    rewrite parse_fmt3_nonneg. eauto.
  - destruct neg; cbn; eauto.
  - cbn. eauto.
  - rewrite parse_fmt3_nonneg. eauto.
Qed.

(** In exact arithmetic it is read as the number of thousandths nearest to
    the value, ties to even. *)
Lemma exact_fmt3_read (x : Qc) :
  float_of (Nm:=exact) (SText (fmt3 x)) =
  Ok (if (Qnum (this x) <? 0)%Z
      then Exact.of_decimal true (Fmt.millis (Qopp (this x))) 3
      else Exact.of_decimal false (Fmt.millis (this x)) 3).
Proof.
  unfold float_of. cbn [fmt3 exact]. unfold Exact.fmt3.
  destruct (Qnum (this x) <? 0)%Z.
  - now rewrite parse_fmt3_nonneg.
  - change (Fmt.fmt3_nonneg (this x)) with (Fmt.minus_sign false ++ Fmt.fmt3_nonneg (this x)).
    now rewrite parse_fmt3_nonneg.
Qed.

Lemma round_half_even_close (n : Z) (d : positive) :
  (Z.abs (2 * Z.pos d * Fmt.round_half_even n d - 2 * n) <= Z.pos d)%Z.
Proof.
  unfold Fmt.round_half_even.
  pose proof (Z.div_mod n (Z.pos d) ltac:(lia)) as E.
  pose proof (Z.mod_pos_bound n (Z.pos d) ltac:(lia)) as B.
  set (q := (n / Z.pos d)%Z) in *. set (r := (n mod Z.pos d)%Z) in *.
  destruct (Z.compare_spec (2 * r) (Z.pos d)); [destruct (Z.even q)| |]; nia.
Qed.

Lemma round_half_even_nonneg (n : Z) (d : positive) :
  (0 <= n)%Z -> (0 <= Fmt.round_half_even n d)%Z.
Proof.
  intros Hn. unfold Fmt.round_half_even.
  assert (0 <= n / Z.pos d)%Z by (apply Z.div_pos; lia).
  destruct (2 * (n mod Z.pos d) ?= Z.pos d)%Z; [destruct (Z.even _)| |]; lia.
Qed.

(** The thousandths written for a value that is not negative are within
    half a thousandth of it. *)
Lemma millis_close (q : Q) :
  (0 <= Qnum q)%Z ->
  (Qabs (Qmake (Z.of_N (Fmt.millis q)) 1000 - q) <= 1 # 2000)%Q.
Proof.
  intros Hq. destruct q as [n d]. cbn [Qnum] in Hq. unfold Fmt.millis. cbn [Qnum Qden].
  pose proof (round_half_even_close (n * 1000) d) as C.
  pose proof (round_half_even_nonneg (n * 1000) d ltac:(lia)) as P.
  rewrite Z2N.id by exact P.
  set (r := Fmt.round_half_even (n * 1000) d) in *.
  apply Qabs_Qle_condition. unfold Qle, Qminus, Qplus, Qopp. cbn.
  split; nia.
Qed.

Lemma exact_fmt3_close (x : Qc) :
  exists y,
    float_of (Nm:=exact) (SText (fmt3 x)) = Ok y /\
    (x - Exact.of_decimal false 5 4 <= y <= x + Exact.of_decimal false 5 4)%Qc.
Proof.
  rewrite exact_fmt3_read. eexists. split; [reflexivity|].
  destruct x as [q Hq]. cbn [this].
  unfold Qcle, Qcminus, Qcplus, Qcopp, Exact.of_decimal, Q2Qc. cbn [this].
  rewrite !Qred_correct.
  change (Z.to_pos (10 ^ Z.of_nat 4)) with 10000%positive.
  change (Z.to_pos (10 ^ Z.of_nat 3)) with 1000%positive.
  destruct (Z.ltb_spec (Qnum q) 0) as [Hneg|Hpos]; cbn [this]; rewrite !Qred_correct.
  - pose proof (millis_close (Qopp q) ltac:(destruct q; cbn in *; lia)) as C.
    apply Qabs_Qle_condition in C. destruct C as [C1 C2].
    revert C1 C2. generalize (Fmt.millis (- q)). intros m C1 C2.
    destruct q as [n d]. unfold Qle, Qminus, Qplus, Qopp in *. cbn in *. split; lia.
  - pose proof (millis_close q Hpos) as C.
    apply Qabs_Qle_condition in C. destruct C as [C1 C2].
    revert C1 C2. generalize (Fmt.millis q). intros m C1 C2.
    destruct q as [n d]. unfold Qle, Qminus, Qplus, Qopp in *. cbn in *. split; lia.
Qed.

(** ** The batch *)

Section Comparison.
Context {num : Type} {Nm : Number num}.
Hypothesis fmt3_readable : forall x : num, exists y, float_of (SText (fmt3 x)) = Ok y.

Lemma redistribute_timed (pairs : list (fragment num * weight_info num)) :
  forall T W t out, redistribute T W t pairs = Ok out -> Forall timed out.
Proof.
  induction pairs as [|[frag wi] rest IH]; intros T W t out H.
  - injection H as <-. constructor.
  - cbn [redistribute] in H.
    bind_inv H. bind_inv H. bind_inv H. bind_inv H. injection H as <-.
    constructor; [|now apply (IH _ _ _ _ E2)].
    destruct (fmt3_readable t) as (b & Hb).
    destruct (fmt3_readable (add t (mul T v1))) as (e & He).
    exists b, e. cbn [begin end_]. split; assumption.
Qed.

Lemma compare_timing_rows_timed (orig adj : list (fragment num)) :
  Forall timed orig -> Forall timed adj -> compare_timing_rows (combine orig adj) = Ok tt.
Proof.
  intros Ho. revert adj. induction Ho as [|o orig (b & e & Hb & He) _ IH]; intros adj Ha;
    [reflexivity|].
  destruct Ha as [|a adj (b' & e' & Hb' & He') Ha]; [reflexivity|].
  cbn [combine compare_timing_rows]. rewrite He, Hb, He', Hb'. cbn [bind]. now apply IH.
Qed.




Lemma compare_timing_after_adjustment (sync_data : sync_map num)
      (words paired : list (word num)) (out : sync_map num) :
  matcher (fragments sync_data) words = Some paired ->
  adjust_timing sync_data words = Ok out ->
  compare_timing sync_data out = Ok tt.
Proof.
  intros Hm A. unfold compare_timing.
  unfold adjust_timing in A. rewrite Hm in A.
  pose proof (matcher_length _ _ _ Hm) as L.
  destruct (adjust_matched_inv _ _ _ A) as (first & rest & b & l & F & Hb & Hl & R).
  apply compare_timing_rows_timed; [|now apply (redistribute_timed _ _ _ _ _ R)].
  destruct (redistribute_inv _ _ _ _ _ R) as (Ht & _).
  now rewrite (map_fst_combine _ _ (word_weights_length _ _ L)) in Ht.
Qed.



End Comparison.

(** X7. A timestamp that [adjust_timing] writes is a number for
    [float]: on binary64 always, [nan] and [inf] included, and in exact
    arithmetic it is read as a value within half a thousandth of the one
    that was written. *)
Theorem written_timestamps_read_back :
  (forall x : float, exists y, float_of (Nm:=binary64) (SText (fmt3 x)) = Ok y) /\
  (forall x : Qc, exists y,
      float_of (Nm:=exact) (SText (fmt3 x)) = Ok y /\
      (x - Exact.of_decimal false 5 4 <= y <= x + Exact.of_decimal false 5 4)%Qc).
Proof.
  split.
  - intros x. unfold float_of. cbn [fmt3 binary64]. unfold Binary64.fmt3.
    destruct (Prim2SF x) as [neg|neg| |neg m e].
    + change (py "0.000") with (Fmt.fmt3_nonneg (0 # 1)).
      rewrite parse_fmt3_nonneg. eauto.
    + destruct neg; cbn; eauto.
    + cbn. eauto.
    + rewrite parse_fmt3_nonneg. eauto.
  - intros x. apply exact_fmt3_close.
Qed.

(** X8. After a redistribution that returns, the comparison table of
    [main] never raises: the original timestamps were read by the
    redistribution itself and the adjusted ones are numbers written with
    three decimals. This holds on binary64 and in exact arithmetic. *)
Theorem compare_timing_after_redistribution :
  (forall (sync_data : sync_map float) (words paired : list (word float)) (out : sync_map float),
      matcher (fragments sync_data) words = Some paired ->
      adjust_timing (Nm:=binary64) sync_data words = Ok out ->
      compare_timing sync_data out = Ok tt) /\
  (forall (sync_data : sync_map Qc) (words paired : list (word Qc)) (out : sync_map Qc),
      matcher (fragments sync_data) words = Some paired ->
      adjust_timing (Nm:=exact) sync_data words = Ok out ->
      compare_timing sync_data out = Ok tt).
Proof.
  split; intros sync_data words paired out.
  - apply compare_timing_after_adjustment. apply binary64_fmt3_readable.
  - apply compare_timing_after_adjustment. intros x.
    destruct (exact_fmt3_close x) as (y & Hy & _). eauto.
Qed.



(** ** Tokens of text and markers *)

Lemma is_prefix_head (old : str) (c : char) (t : str) (o : char) (old' : str) :
  old = o :: old' -> c <> o -> is_prefix old (c :: t) = false.
Proof.
  intros -> H. cbn [is_prefix]. destruct (N.eqb_spec o c); [congruence|reflexivity].
Qed.

(** [replace] over a stretch of text in which the first character of [old]
    does not occur. *)
Lemma replace_text (o : char) (old' new s rest : str) :
  forallb (fun c => negb (N.eqb c o)) s = true ->
  replace (o :: old') new (s ++ rest) = s ++ replace (o :: old') new rest.
Proof.
  induction s as [|c s IH]; [reflexivity|]. cbn [forallb]. intros H.
  apply andb_true_iff in H as (Hc & H).
  unfold replace in *. cbn [app replace_from].
  rewrite (is_prefix_head (o :: old') c (s ++ rest) o old' eq_refl).
  - now rewrite IH.
  - intros ->. now rewrite N.eqb_refl in Hc.
Qed.

(** [replace] over a marker: it is replaced when it is [old] and kept
    otherwise. *)
Lemma replace_marker (d k : char) (new rest : str) :
  k <> lbrace ->
  replace (marker [d]) new (marker [k] ++ rest) =
  (if N.eqb k d then new else marker [k]) ++ replace (marker [d]) new rest.
Proof.
  intros Hk. unfold replace, marker. cbn [app List.length replace_from is_prefix Nat.sub].
  rewrite N.eqb_refl. cbn [andb]. rewrite (N.eqb_sym d k).
  destruct (N.eqb_spec k d) as [->|Hd].
  - cbn [andb]. reflexivity.
  - cbn [andb]. destruct (N.eqb_spec lbrace k) as [E|_]; [congruence|]. reflexivity.
Qed.

Lemma replace_partly (d : char) (new : str) (sign : char -> option str) (ps : list piece) :
  (forall k a, sign k = Some a -> forallb (fun c => negb (N.eqb c lbrace)) a = true) ->
  Forall (fun p => match p with
                   | Text s => forallb (fun c => negb (N.eqb c lbrace)) s = true
                   | Mark k => k <> lbrace
                   end) ps ->
  replace (marker [d]) new (partly sign ps) =
  partly (fun k => match sign k with
                   | Some a => Some a
                   | None => if N.eqb k d then Some new else None
                   end) ps.
Proof.
  intros Hs. induction 1 as [|p ps Hp _ IH]; [reflexivity|].
  unfold partly in *. cbn [flat_map].
  destruct p as [s|k].
  - change (marker [d]) with (lbrace :: d :: [rbrace]).
    rewrite (replace_text lbrace _ new s _ Hp). f_equal. exact IH.
  - destruct (sign k) as [a|] eqn:E.
    + change (marker [d]) with (lbrace :: d :: [rbrace]).
      rewrite (replace_text lbrace _ new a _ (Hs k a E)). f_equal. exact IH.
    + rewrite (replace_marker d k new _ Hp). rewrite IH.
      destruct (N.eqb k d); reflexivity.
Qed.

Lemma partly_ext (f g : char -> option str) (ps : list piece) :
  (forall k, f k = g k) -> partly f ps = partly g ps.
Proof.
  intros E. unfold partly. induction ps as [|[s|k] ps IH]; cbn [flat_map]; [reflexivity| |].
  - now rewrite IH.
  - now rewrite E, IH.
Qed.

Lemma pieces_without_brace (ps : list piece) :
  forallb piece_ok ps = true ->
  Forall (fun p => match p with
                   | Text s => forallb (fun c => negb (N.eqb c lbrace)) s = true
                   | Mark k => k <> lbrace
                   end) ps.
Proof.
  intros H. apply Forall_forall. intros p Hp.
  rewrite forallb_forall in H. specialize (H p Hp).
  destruct p as [s|k]; [exact H|]. now apply ascii_digit_not_lbrace.
Qed.

Lemma sub_markers_text (s rest : str) :
  forallb (fun c => negb (N.eqb c lbrace)) s = true ->
  sub_markers (s ++ rest) = s ++ sub_markers rest.
Proof.
  induction s as [|c s IH]; [reflexivity|]. cbn [forallb]. intros H.
  apply andb_true_iff in H as (Hc & H).
  cbn [app]. rewrite sub_markers_cons.
  unfold marker_len at 1. destruct (N.eqb c lbrace); [discriminate|].
  now rewrite IH.
Qed.

Lemma finditer_text (s rest : str) :
  forallb (fun c => negb (N.eqb c lbrace)) s = true ->
  finditer_svara (s ++ rest) = finditer_svara rest.
Proof.
  intros H. apply finditer_skip_all. apply Forall_forall. intros c Hc.
  rewrite forallb_forall in H. specialize (H c Hc). intros ->.
  now rewrite N.eqb_refl in H.
Qed.

Lemma finditer_marker (k : char) (rest : str) :
  is_ascii_digit k = true -> finditer_svara (marker [k] ++ rest) = k :: finditer_svara rest.
Proof.
  intros Hk. unfold marker. cbn [app]. rewrite finditer_cons3.
  now rewrite !N.eqb_refl, (ascii_digit_is_decimal k Hk).
Qed.

Lemma written_pieces (ps : list piece) :
  forallb piece_ok ps = true ->
  sub_markers (written ps) = text_of ps /\ finditer_svara (written ps) = codes ps.
Proof.
  induction ps as [|p ps IH]; [split; reflexivity|]. cbn [forallb].
  intros H. apply andb_true_iff in H as (Hp & H). destruct (IH H) as (IH1 & IH2).
  unfold written, text_of, codes in *. cbn [flat_map]. destruct p as [s|k]; cbn [piece_ok] in Hp.
  - rewrite (sub_markers_text _ _ Hp), (finditer_text _ _ Hp), IH1, IH2. split; reflexivity.
  - rewrite sub_markers_marker; [|discriminate|cbn [forallb]; now rewrite Hp].
    rewrite (finditer_marker _ _ Hp), IH1, IH2. split; reflexivity.
Qed.

(** X10. For a token made of stretches of text without an opening
    brace and of markers with a one-digit code, [extract_svara_info] gives
    the text without the markers as clean text, the text with the accent
    sign of every marker in its place as annotated text (nothing for [{0}],
    and the marker itself for a code that is not 0, 1, 2 or 5), and counts
    that are the numbers of markers of the four codes. *)
Theorem extract_svara_info_of_pieces :
  forall (num : Type) (Nm : Number num) (ps : list piece),
    forallb piece_ok ps = true ->
    let w := extract_svara_info (written ps) in
    clean_text w = text_of ps /\
    text_with_svaras w = Some (accented ps) /\
    svara_counts w =
      counts_of (cnt 48%N (codes ps)) (cnt 49%N (codes ps))
                (cnt 50%N (codes ps)) (cnt 53%N (codes ps)) /\
    raw w = written ps.
Proof.
  intros num Nm ps H w. subst w. unfold extract_svara_info.
  cbn [clean_text text_with_svaras svara_counts raw].
  destruct (written_pieces ps H) as (Hc & Hf).
  split; [exact Hc|]. split; [|split; [|reflexivity]].
  - f_equal. unfold parse_svara_to_unicode.
    pose proof (pieces_without_brace ps H) as Hp.
    change (written ps) with (partly (fun _ => None) ps).
    change (py "{1}") with (marker [49%N]). change (py "{2}") with (marker [50%N]).
    change (py "{5}") with (marker [53%N]). change (py "{0}") with (marker [48%N]).
    rewrite (replace_partly 49%N _ _ ps) by (discriminate || exact Hp).
    rewrite (replace_partly 50%N _ _ ps);
      [|intros k a; destruct (N.eqb k 49); [intros [= <-]; reflexivity|discriminate]|exact Hp].
    rewrite (replace_partly 53%N _ _ ps);
      [|intros k a; destruct (N.eqb k 49); [intros [= <-]; reflexivity|];
        destruct (N.eqb k 50); [intros [= <-]; reflexivity|discriminate]|exact Hp].
    rewrite (replace_partly 48%N _ _ ps);
      [|intros k a; destruct (N.eqb k 49); [intros [= <-]; reflexivity|];
        destruct (N.eqb k 50); [intros [= <-]; reflexivity|];
        destruct (N.eqb k 53); [intros [= <-]; reflexivity|discriminate]|exact Hp].
    unfold partly, accented. apply flat_map_ext. intros [s|k]; [reflexivity|].
    unfold accent. destruct (N.eqb k 49), (N.eqb k 50), (N.eqb k 53), (N.eqb k 48); reflexivity.
  - rewrite count_svaras_counts, Hf. reflexivity.
Qed.

Lemma replace_absent (old new : str) (s : str) :
  occurrences old s = 0 -> replace old new s = s.
Proof.
  unfold replace. induction s as [|c s IH]; [reflexivity|].
  rewrite occurrences_cons. cbn [replace_from].
  destruct (is_prefix old (c :: s)); [discriminate|]. cbn [Nat.add].
  intros H. now rewrite IH.
Qed.

(** X11. A string in which none of the four markers [{0}], [{1}],
    [{2}], [{5}] occurs is its own annotated text: a marker of another
    code, which the clean text loses, stays in [text_with_svaras] as it is
    written. *)
Theorem annotated_text_keeps_unknown_markers :
  forall (num : Type) (Nm : Number num) (text : str),
    marker_count 48%N text = 0%Z -> marker_count 49%N text = 0%Z ->
    marker_count 50%N text = 0%Z -> marker_count 53%N text = 0%Z ->
    parse_svara_to_unicode text = text /\
    text_with_svaras (extract_svara_info text) = Some text /\
    total_svaras (extract_svara_info text) = 0%Z /\
    (has_marker text -> clean_text (extract_svara_info text) <> text).
Proof.
  intros num Nm text H0 H1 H2 H5.
  assert (P : parse_svara_to_unicode text = text).
  { unfold marker_count in *. unfold parse_svara_to_unicode.
    change (py "{1}") with (marker [49%N]). change (py "{2}") with (marker [50%N]).
    change (py "{5}") with (marker [53%N]). change (py "{0}") with (marker [48%N]).
    rewrite (replace_absent (marker [49%N])) by (apply Nat2Z.inj; exact H1).
    rewrite (replace_absent (marker [50%N])) by (apply Nat2Z.inj; exact H2).
    rewrite (replace_absent (marker [53%N])) by (apply Nat2Z.inj; exact H5).
    apply replace_absent. apply Nat2Z.inj. exact H0. }
  split; [exact P|]. unfold extract_svara_info.
  cbn [text_with_svaras total_svaras clean_text]. split; [now rewrite P|]. split.
  - rewrite count_svaras_marker_counts, H0, H1, H2, H5. reflexivity.
  - intros Hm E. apply sub_markers_shrinks in Hm. rewrite E in Hm. lia.
Qed.

(** ** The word list of [extract_text.py] *)






(** ** What the markers take from a token *)

Lemma is_prefix_app (p s : str) : is_prefix p s = true -> exists rest, s = p ++ rest.
Proof.
  revert s. induction p as [|x p IH]; intros s H; [now exists s|].
  destruct s as [|y s]; [discriminate|]. cbn [is_prefix] in H.
  apply andb_true_iff in H as (E & H). apply N.eqb_eq in E. subst y.
  destruct (IH s H) as (rest & ->). now exists rest.
Qed.

Lemma occurrences_skip_all (ds : str) (l post : str) :
  Forall (fun c => c <> lbrace) l ->
  occurrences (marker ds) (l ++ post) = occurrences (marker ds) post.
Proof.
  induction 1 as [|c l Hc _ IH]; [reflexivity|].
  cbn [app]. rewrite occurrences_skip; [exact IH|]. now apply is_prefix_marker_head.
Qed.

Lemma counted_cons (c : char) (t : str) :
  counted (c :: t) =
  (if is_prefix (marker [48%N]) (c :: t) then 1 else 0)
  + (if is_prefix (marker [49%N]) (c :: t) then 1 else 0)
  + (if is_prefix (marker [50%N]) (c :: t) then 1 else 0)
  + (if is_prefix (marker [53%N]) (c :: t) then 1 else 0)
  + counted t.
Proof. unfold counted. rewrite !occurrences_cons. lia. Qed.

Lemma counted_head_le (s : str) :
  (if is_prefix (marker [48%N]) s then 1 else 0)
  + (if is_prefix (marker [49%N]) s then 1 else 0)
  + (if is_prefix (marker [50%N]) s then 1 else 0)
  + (if is_prefix (marker [53%N]) s then 1 else 0) <= 1.
Proof.
  destruct s as [|a [|d [|r rest]]]; unfold marker; cbn [app is_prefix].
  - lia.
  - rewrite !andb_false_r. lia.
  - rewrite !andb_false_r. lia.
  - destruct (N.eqb lbrace a); cbn [andb]; [|lia].
    destruct (N.eqb rbrace r); [|rewrite !andb_false_r; lia]. cbn [andb]. rewrite !andb_true_r.
    destruct (N.eqb_spec 48 d) as [<-|_]; [cbn; lia|].
    destruct (N.eqb_spec 49 d) as [<-|_]; [cbn; lia|].
    destruct (N.eqb_spec 50 d) as [<-|_]; [cbn; lia|].
    destruct (N.eqb 53 d); lia.
Qed.

Lemma counted_head_none (s : str) :
  marker_len s = None ->
  (if is_prefix (marker [48%N]) s then 1 else 0)
  + (if is_prefix (marker [49%N]) s then 1 else 0)
  + (if is_prefix (marker [50%N]) s then 1 else 0)
  + (if is_prefix (marker [53%N]) s then 1 else 0) = 0.
Proof.
  intros Hn.
  assert (P : forall d, is_ascii_digit d = true -> is_prefix (marker [d]) s = false).
  { intros d Hd. destruct (is_prefix (marker [d]) s) eqn:E; [|reflexivity].
    apply is_prefix_app in E as (rest & ->).
    rewrite (marker_len_marker [d] rest) in Hn; [discriminate|discriminate|].
    cbn [forallb]. now rewrite Hd. }
  now rewrite !P.
Qed.

Lemma counted_skip_all (l post : str) :
  Forall (fun c => c <> lbrace) l -> counted (l ++ post) = counted post.
Proof. intros H. unfold counted. now rewrite !occurrences_skip_all. Qed.

Lemma sub_markers_counted_upto (n : nat) :
  forall s, List.length s <= n ->
    List.length (sub_markers s) + 3 * counted s <= List.length s.
Proof.
  induction n as [|n IH]; intros s L.
  - destruct s; [cbn; lia|cbn in L; lia].
  - destruct s as [|c t]; [cbn; lia|].
    rewrite sub_markers_cons, counted_cons.
    destruct (marker_len (c :: t)) as [m|] eqn:M.
    + pose proof (counted_head_le (c :: t)) as Hh.
      destruct (marker_len_Some _ _ M) as (ds & post & Hne & Hd & E & ->).
      assert (Hs : skipn (List.length ds + 2) (marker ds ++ post) = post).
      { replace (List.length ds + 2) with (List.length (marker ds))
          by (unfold marker; cbn [List.length]; rewrite length_app; cbn; lia).
        now rewrite skipn_app, skipn_all, Nat.sub_diag. }
      assert (Ht : counted t = counted post).
      { assert (Et : t = (ds ++ [rbrace]) ++ post).
        { unfold marker in E. cbn [app] in E. now injection E. }
        rewrite Et. apply counted_skip_all. apply Forall_app. split.
        - apply Forall_forall. intros x Hx. apply ascii_digit_not_lbrace.
          rewrite forallb_forall in Hd. now apply Hd.
        - repeat constructor. discriminate. }
      replace (skipn (List.length ds + 2) (c :: t)) with post by (now rewrite E, Hs).
      rewrite Ht.
      assert (Lp : List.length (marker ds ++ post) = List.length ds + 2 + List.length post).
      { unfold marker. cbn [List.length app]. rewrite !length_app. cbn. lia. }
      assert (1 <= List.length ds) by (destruct ds; [congruence|cbn; lia]).
      rewrite E, Lp in L. specialize (IH post ltac:(lia)).
      replace (List.length (c :: t)) with (List.length ds + 2 + List.length post)
        by (now rewrite E, Lp).
      lia.
    + rewrite (counted_head_none _ M). cbn [List.length] in *.
      specialize (IH t ltac:(lia)). lia.
Qed.

(** X13. Every word that [extract_words_with_svaras] returns comes
    from a token that is not empty and has no white space; its clean text
    has no white space either, its [total_svaras] is the number of
    occurrences of the four counted markers in the token, and the clean
    text is shorter than the token by three characters at least for each
    of these: every counted marker is removed from the clean text. *)
Theorem extracted_words_invariants :
  forall (num : Type) (Nm : Number num) (lines : list line) (w : word num),
    In w (extract_words_with_svaras lines) ->
    raw w <> [] /\
    no_space (raw w) = true /\
    no_space (clean_text w) = true /\
    total_svaras w = Z.of_nat (counted (raw w)) /\
    List.length (clean_text w) + 3 * counted (raw w) <= List.length (raw w).
Proof.
  intros num Nm lines w Hw. unfold extract_words_with_svaras in Hw.
  apply in_flat_map in Hw as (l & _ & Hw). destruct l as [s| |]; try contradiction.
  apply in_map_iff in Hw as (token & <- & Ht).
  pose proof (split_from_words s [] eq_refl) as F. rewrite Forall_forall in F.
  destruct (F token Ht) as (Hs & Hne).
  unfold extract_svara_info. cbn [raw clean_text total_svaras].
  repeat split; try assumption.
  - now apply sub_markers_no_space.
  - rewrite count_svaras_marker_counts. unfold counts_of, marker_count, counted.
    cbn [List.map snd fold_left]. rewrite !Nat2Z.inj_add. reflexivity.
  - apply (sub_markers_counted_upto (List.length token)). lia.
Qed.

(** ** The files of a verse *)

Lemma read_int_digits (ds rest : str) (c : char) :
  ds <> [] -> forallb is_ascii_digit ds = true -> is_ascii_digit c = false ->
  read_int (ds ++ c :: rest) = (Z.of_N (digits_value 0 ds), c :: rest) /\
  read_int (45%N :: ds ++ c :: rest) = ((- Z.of_N (digits_value 0 ds))%Z, c :: rest).
Proof.
  intros Hne Hd Hc.
  assert (R : digit_run (ds ++ c :: rest) = List.length ds) by (now apply digit_run_app_stop).
  assert (F : firstn (List.length ds) (ds ++ c :: rest) = ds).
  { rewrite firstn_app, Nat.sub_diag, firstn_all. cbn [firstn]. apply app_nil_r. }
  assert (S : skipn (List.length ds) (ds ++ c :: rest) = c :: rest).
  { now rewrite skipn_app, Nat.sub_diag, skipn_all. }
  split.
  - destruct ds as [|d ds']; [congruence|].
    change ((d :: ds') ++ c :: rest) with (d :: (ds' ++ c :: rest)) in *.
    unfold read_int.
    replace (N.eqb d 45) with false.
    + now rewrite R, F, S.
    + symmetry. apply N.eqb_neq. intros ->. discriminate.
  - unfold read_int. cbn [N.eqb Pos.eqb]. now rewrite R, F, S.
Qed.

Lemma digits_value_zeros (k : nat) (ds : str) :
  digits_value 0 (repeat 48%N k ++ ds) = digits_value 0 ds.
Proof. induction k as [|k IH]; [reflexivity|]. cbn [repeat app digits_value]. exact IH. Qed.

Lemma N_chars_digits (n : N) : forallb is_ascii_digit (Fmt.N_chars n) = true.
Proof. apply uint_chars_digits. Qed.

Lemma read_int_chars (n : Z) (rest : str) (c : char) :
  is_ascii_digit c = false ->
  read_int (Paths.int_chars n ++ c :: rest) = (n, c :: rest).
Proof.
  intros Hc. destruct n as [|p|p]; unfold Paths.int_chars.
  - destruct (read_int_digits (py "0") rest c ltac:(discriminate) eq_refl Hc) as (H & _).
    exact H.
  - destruct (read_int_digits (Fmt.N_chars (Npos p)) rest c (N_chars_nonempty _)
                (N_chars_digits _) Hc) as (H & _).
    etransitivity; [exact H|]. now rewrite digits_value_N_chars.
  - destruct (read_int_digits (Fmt.N_chars (Npos p)) rest c (N_chars_nonempty _)
                (N_chars_digits _) Hc) as (_ & H).
    etransitivity; [exact H|]. now rewrite digits_value_N_chars.
Qed.

Lemma read_int_chars_03 (n : Z) (rest : str) (c : char) :
  is_ascii_digit c = false ->
  read_int (Paths.int_chars_03 n ++ c :: rest) = (n, c :: rest).
Proof.
  intros Hc. unfold Paths.int_chars_03.
  set (sign := match n with Zneg _ => [45%N] | _ => [] end).
  set (k := 3 - List.length sign - List.length (Fmt.N_chars (Z.abs_N n))).
  assert (Hne : repeat 48%N k ++ Fmt.N_chars (Z.abs_N n) <> []).
  { intros E. apply app_eq_nil in E as (_ & E). now apply N_chars_nonempty in E. }
  assert (Hd : forallb is_ascii_digit (repeat 48%N k ++ Fmt.N_chars (Z.abs_N n)) = true).
  { rewrite forallb_app, N_chars_digits, andb_true_r.
    apply forallb_forall. intros x Hx. apply repeat_spec in Hx. now subst x. }
  destruct (read_int_digits _ rest c Hne Hd Hc) as (H1 & H2).
  rewrite digits_value_zeros, digits_value_N_chars in H1, H2.
  rewrite <- app_assoc.
  destruct n as [|p|p]; subst sign; cbn [app].
  - etransitivity; [exact H1|]. reflexivity.
  - etransitivity; [exact H1|]. reflexivity.
  - etransitivity; [exact H2|]. reflexivity.
Qed.

Lemma sync_name_inj (m s r m' s' r' : Z) :
  Paths.sync_name m s r = Paths.sync_name m' s' r' -> m = m' /\ s = s' /\ r = r'.
Proof.
  unfold Paths.sync_name. intros E.
  apply (f_equal read_int) in E. rewrite !read_int_chars in E by reflexivity.
  injection E as -> E. split; [reflexivity|].
  apply (f_equal read_int) in E. rewrite !read_int_chars in E by reflexivity.
  injection E as -> E. split; [reflexivity|].
  apply (f_equal read_int) in E.
  change (py "_sync.json") with (95%N :: py "sync.json") in E.
  rewrite !read_int_chars in E by reflexivity. now injection E.
Qed.

(** X20. The paths of two different verses are different, for the verse
    record, for the sync map that is read and for the adjusted map that is
    written; and no adjusted map is written over a sync map that is read. *)
Theorem verses_have_files_of_their_own :
  forall m s r m' s' r' : Z,
    (Paths.verse_path m s r = Paths.verse_path m' s' r' -> m = m' /\ s = s' /\ r = r') /\
    (Paths.sync_path m s r = Paths.sync_path m' s' r' -> m = m' /\ s = s' /\ r = r') /\
    (Paths.output_path m s r = Paths.output_path m' s' r' -> m = m' /\ s = s' /\ r = r') /\
    Paths.output_path m s r <> Paths.sync_path m' s' r'.
Proof.
  intros m s r m' s' r'. split; [|split; [|split]].
  - unfold Paths.verse_path, Paths.path_join. rewrite <- !app_assoc. cbn [app].
    intros E. apply app_inv_head in E. injection E as E.
    rewrite <- ?app_assoc in E. cbn [app] in E.
    apply (f_equal read_int) in E. rewrite !read_int_chars_03 in E by reflexivity.
    injection E as -> E. split; [reflexivity|].
    apply (f_equal read_int) in E. rewrite !read_int_chars_03 in E by reflexivity.
    injection E as -> E. split; [reflexivity|].
    apply (f_equal read_int) in E.
    change (py ".json") with (46%N :: py "json") in E.
    rewrite !read_int_chars_03 in E by reflexivity. now injection E.
  - unfold Paths.sync_path, Paths.path_join. intros E.
    apply app_inv_head in E. injection E as E. now apply sync_name_inj.
  - unfold Paths.output_path, Paths.path_join. intros E.
    apply app_inv_head in E. injection E as E. now apply sync_name_inj.
  - unfold Paths.output_path, Paths.sync_path, Paths.path_join.
    change Paths.OUTPUT_DIR with (Paths.SYNC_DIR ++ py "_adjusted").
    rewrite <- app_assoc. intros E. apply app_inv_head in E. discriminate E.
Qed.

(** ** The evaluation report *)

Section Evaluation.
Import Evaluate.

Section Report.
Context {num : Type} {Nm : Number num} {Od : Ordered num}.



Lemma analyze_alignment_inv (frs : list (aligned num)) (r : report num) :
  analyze_alignment (Ok frs) = Ok (Report r) ->
  exists first rest,
    frs = first :: rest /\
    word_count r = List.length frs /\
    float_of (a_end (last frs first)) = Ok (total_duration r) /\
    measure frs = Ok (durations r) /\
    divide (sum (List.map t_duration (durations r))) (of_int (Z.of_nat (word_count r)))
    = Ok (avg_duration r) /\
    py_min (List.map t_duration (durations r)) = Ok (min_duration r) /\
    py_max (List.map t_duration (durations r)) = Ok (max_duration r) /\
    issues r = flat_map flag (durations r).
Proof.
  unfold analyze_alignment. cbn [bind].
  destruct frs as [|first rest]; [discriminate|].
  intros H. bind_inv H. bind_inv H. bind_inv H. bind_inv H. bind_inv H.
  injection H as <-. cbn [word_count total_duration avg_duration min_duration max_duration
                          durations issues].
  exists first, rest. repeat split; assumption.
Qed.




End Report.


(** The comparison of binary64: no float is below itself, and [<] is
    transitive, [nan], zeros and infinities included. *)
Lemma SFltb_irrefl (x : spec_float) : SFltb x x = false.
Proof.
  unfold SFltb, SFcompare. destruct x as [s|s| |s m e]; try destruct s; try reflexivity;
    rewrite Z.compare_refl; change (Pos.compare_cont Eq m m) with (Pos.compare m m);
    rewrite Pos.compare_refl; reflexivity.
Qed.

Lemma SFltb_trans (x y z : spec_float) :
  SFltb x y = true -> SFltb y z = true -> SFltb x z = true.
Proof.
  unfold SFltb, SFcompare.
  destruct x as [sx|sx| |sx mx ex], y as [sy|sy| |sy my ey], z as [sz|sz| |sz mz ez];
    try destruct sx; try destruct sy; try destruct sz;
    try discriminate; try reflexivity;
    change (Pos.compare_cont Eq) with Pos.compare;
    destruct (Z.compare_spec ex ey); try discriminate;
    destruct (Z.compare_spec ey ez); try discriminate;
    destruct (Z.compare_spec ex ez); try reflexivity; try lia; subst;
    try (destruct (Pos.compare_spec mx my); try discriminate;
         destruct (Pos.compare_spec my mz); try discriminate;
         destruct (Pos.compare_spec mx mz); try reflexivity; lia).
Qed.

Lemma ltb_irrefl (x : float) : PrimFloat.ltb x x = false.
Proof. rewrite ltb_spec. apply SFltb_irrefl. Qed.

Lemma ltb_trans (x y z : float) :
  PrimFloat.ltb x y = true -> PrimFloat.ltb y z = true -> PrimFloat.ltb x z = true.
Proof. rewrite !ltb_spec. apply SFltb_trans. Qed.

Lemma binary64_min_spec (xs : list float) (m : float) :
  py_min (Od:=binary64_ordered) xs = Ok m ->
  In m xs /\ Forall (fun x => PrimFloat.ltb x m = false) xs.
Proof.
  destruct xs as [|x xs]; [discriminate|]. cbn [py_min]. intros [= <-].
  change (fold_left _ xs x)
    with (fold_left (fun cur item : float => if PrimFloat.ltb item cur then item else cur) xs x).
  assert (G : forall l cur (seen : list float),
             Forall (fun x => PrimFloat.ltb x cur = false) seen ->
             let m := fold_left (fun cur item : float =>
                                   if PrimFloat.ltb item cur then item else cur) l cur in
             (m = cur \/ In m l) /\
             Forall (fun x => PrimFloat.ltb x m = false) (seen ++ l)).
  { induction l as [|a l IH]; intros cur seen Hs; cbn [fold_left].
    - split; [now left|]. now rewrite app_nil_r.
    - destruct (PrimFloat.ltb a cur) eqn:E.
      + destruct (IH a (seen ++ [a])) as (Hin & Hall).
        * apply Forall_app. split; [|constructor; [apply ltb_irrefl|constructor]].
          apply Forall_forall. intros d Hd. rewrite Forall_forall in Hs.
          destruct (PrimFloat.ltb d a) eqn:D; [|reflexivity].
          rewrite <- (Hs d Hd). symmetry. now apply (ltb_trans d a cur).
        * split; [right; destruct Hin as [->|Hin]; [now left|now right]|].
          now rewrite <- app_assoc in Hall.
      + destruct (IH cur (seen ++ [a])) as (Hin & Hall).
        * apply Forall_app. split; [exact Hs|constructor; [exact E|constructor]].
        * split; [destruct Hin as [->|Hin]; [now left|right; now right]|].
          now rewrite <- app_assoc in Hall. }
  destruct (G xs x [x]) as (Hin & Hall); [constructor; [apply ltb_irrefl|constructor]|].
  split; [destruct Hin as [->|Hin]; [now left|now right]|exact Hall].
Qed.

Lemma binary64_max_spec (xs : list float) (m : float) :
  py_max (Od:=binary64_ordered) xs = Ok m ->
  In m xs /\ Forall (fun x => PrimFloat.ltb m x = false) xs.
Proof.
  destruct xs as [|x xs]; [discriminate|]. cbn [py_max]. intros [= <-].
  change (fold_left _ xs x)
    with (fold_left (fun cur item : float => if PrimFloat.ltb cur item then item else cur) xs x).
  assert (G : forall l cur (seen : list float),
             Forall (fun x => PrimFloat.ltb cur x = false) seen ->
             let m := fold_left (fun cur item : float =>
                                   if PrimFloat.ltb cur item then item else cur) l cur in
             (m = cur \/ In m l) /\
             Forall (fun x => PrimFloat.ltb m x = false) (seen ++ l)).
  { induction l as [|a l IH]; intros cur seen Hs; cbn [fold_left].
    - split; [now left|]. now rewrite app_nil_r.
    - destruct (PrimFloat.ltb cur a) eqn:E.
      + destruct (IH a (seen ++ [a])) as (Hin & Hall).
        * apply Forall_app. split; [|constructor; [apply ltb_irrefl|constructor]].
          apply Forall_forall. intros d Hd. rewrite Forall_forall in Hs.
          destruct (PrimFloat.ltb a d) eqn:D; [|reflexivity].
          rewrite <- (Hs d Hd). symmetry. now apply (ltb_trans cur a d).
        * split; [right; destruct Hin as [->|Hin]; [now left|now right]|].
          now rewrite <- app_assoc in Hall.
      + destruct (IH cur (seen ++ [a])) as (Hin & Hall).
        * apply Forall_app. split; [exact Hs|constructor; [exact E|constructor]].
        * split; [destruct Hin as [->|Hin]; [now left|right; now right]|].
          now rewrite <- app_assoc in Hall. }
  destruct (G xs x [x]) as (Hin & Hall); [constructor; [apply ltb_irrefl|constructor]|].
  split; [destruct Hin as [->|Hin]; [now left|now right]|exact Hall].
Qed.

(** X15. On binary64 the minimum and the maximum of a report are durations
    of the report, no duration is below the minimum and none is above the
    maximum, [nan] durations included. *)
Theorem min_and_max_bound_the_durations :
  forall (frs : list (aligned float)) (r : report float),
    analyze_alignment (Nm:=binary64) (Ok frs) = Ok (Report r) ->
    let ds := List.map t_duration (durations r) in
    In (min_duration r) ds /\
    In (max_duration r) ds /\
    Forall (fun d => PrimFloat.ltb d (min_duration r) = false /\
                     PrimFloat.ltb (max_duration r) d = false) ds.
Proof.
  intros frs r H ds.
  destruct (analyze_alignment_inv frs r H)
    as (first & rest & F & Hn & _ & Hm & Ha & Hmin & Hmax & _).
  fold ds in Hmin, Hmax.
  destruct (binary64_min_spec _ _ Hmin) as (Imin & Lmin).
  destruct (binary64_max_spec _ _ Hmax) as (Imax & Lmax).
  split; [exact Imin|]. split; [exact Imax|].
  apply Forall_forall. intros d Hd. rewrite Forall_forall in Lmin, Lmax. auto.
Qed.

(** The average is another matter: three fragments of a tenth of a second
    have the average 0.10000000000000002, above their maximum 0.1. *)
Remark average_above_the_maximum :
  match analyze_alignment (Nm:=binary64) (Ok tenths_aligned) with
  | Ok (Report r) => PrimFloat.ltb (max_duration r) (avg_duration r)
  | _ => false
  end = true.
Proof. vm_compute. reflexivity. Qed.

(** A fragment from 0.9 to 1.0 is flagged as very short: the difference of
    the two doubles is below the double 0.1, while the script prints its
    duration as 0.10. *)
Remark binary64_flags_a_tenth :
  match analyze_alignment (Nm:=binary64) (Ok [aligned_fragment "0.900" "1.000" "ab"]) with
  | Ok (Report r) => issues r
  | _ => []
  end = [py "Very short: 'ab' (0.10s)"].
Proof. vm_compute. reflexivity. Qed.


End Evaluation.

(** ** The properties at concrete inputs *)

Lemma empty_sync_map_raises_IndexError_witness :
  adjust_timing (Nm:=binary64) empty_sync (extract_words_with_svaras agni_lines)
  = Raise IndexError.
Proof.
  exact (proj1 (empty_sync_map_raises_IndexError float binary64 empty_sync
                  (extract_words_with_svaras agni_lines) eq_refl)).
Defined.


Lemma adjusted_fragments_are_annotated_witness :
  exists out,
    adjust_timing (Nm:=binary64) three_fragments three_words = Ok out /\
    exists T W,
      Forall2 (annotated T W) (combine (fragments three_fragments) three_words) (fragments out).
Proof.
  pose (out := match adjust_timing (Nm:=binary64) three_fragments three_words with
               | Ok o => o
               | Raise _ => three_fragments
               end).
  assert (H : adjust_timing (Nm:=binary64) three_fragments three_words = Ok out)
    by (vm_compute; reflexivity).
  destruct (adjusted_fragments_are_annotated float binary64 three_fragments three_words
              three_words out eq_refl H) as (first & b & l & _ & _ & _ & F).
  exists out. split; [exact H|]. eauto.
Defined.


Lemma compare_timing_after_redistribution_witness :
  exists out,
    adjust_timing (Nm:=binary64) three_fragments three_words = Ok out /\
    compare_timing three_fragments out = Ok tt.
Proof.
  pose (out := match adjust_timing (Nm:=binary64) three_fragments three_words with
               | Ok o => o
               | Raise _ => three_fragments
               end).
  assert (H : adjust_timing (Nm:=binary64) three_fragments three_words = Ok out)
    by (vm_compute; reflexivity).
  exists out. split; [exact H|].
  exact (proj1 compare_timing_after_redistribution three_fragments three_words three_words out
           eq_refl H).
Defined.


Lemma extract_svara_info_of_pieces_witness :
  clean_text (extract_svara_info (Nm:=binary64) (py "a{1}gnim{2}")) = py "agnim" /\
  text_with_svaras (extract_svara_info (Nm:=binary64) (py "a{1}gnim{2}"))
  = Some (97%N :: 2386%N :: py "gnim" ++ [7386%N]).
Proof.
  destruct (extract_svara_info_of_pieces float binary64 agnim_pieces eq_refl)
    as (Hc & Ht & _).
  split; [exact Hc|exact Ht].
Defined.

Lemma annotated_text_keeps_unknown_markers_witness :
  text_with_svaras (extract_svara_info (Nm:=binary64) (py "a{3}b")) = Some (py "a{3}b") /\
  clean_text (extract_svara_info (Nm:=binary64) (py "a{3}b")) <> py "a{3}b".
Proof.
  destruct (annotated_text_keeps_unknown_markers float binary64 (py "a{3}b")
              eq_refl eq_refl eq_refl eq_refl) as (_ & Ht & _ & Hc).
  split; [exact Ht|]. apply Hc. apply has_markerb_true. reflexivity.
Defined.

Lemma extracted_words_invariants_witness :
  List.length (clean_text (extract_svara_info (Nm:=binary64) (py "hitam{2}")))
  + 3 * counted (py "hitam{2}") <= List.length (py "hitam{2}").
Proof.
  refine (proj2 (proj2 (proj2 (proj2
            (extracted_words_invariants float binary64 [LStr (py "puro hitam{2}")]
               (extract_svara_info (py "hitam{2}")) _))))).
  right. left. reflexivity.
Defined.


Lemma min_and_max_bound_the_durations_witness :
  exists r,
    Evaluate.analyze_alignment (Nm:=binary64) (Ok tenths_aligned) = Ok (Evaluate.Report r) /\
    In (Evaluate.min_duration r) (List.map Evaluate.t_duration (Evaluate.durations r)) /\
    In (Evaluate.max_duration r) (List.map Evaluate.t_duration (Evaluate.durations r)).
Proof.
  pose (r := match Evaluate.analyze_alignment (Nm:=binary64) (Ok tenths_aligned) with
             | Ok (Evaluate.Report r) => r
             | _ => {| Evaluate.word_count := 0;
                       Evaluate.total_duration := PrimFloat.zero;
                       Evaluate.avg_duration := PrimFloat.zero;
                       Evaluate.min_duration := PrimFloat.zero;
                       Evaluate.max_duration := PrimFloat.zero;
                       Evaluate.durations := []; Evaluate.issues := [] |}
             end).
  assert (H : Evaluate.analyze_alignment (Nm:=binary64) (Ok tenths_aligned)
              = Ok (Evaluate.Report r)) by (vm_compute; reflexivity).
  exists r. split; [exact H|].
  destruct (min_and_max_bound_the_durations tenths_aligned r H) as (Hmin & Hmax & _).
  split; [exact Hmin|exact Hmax].
Defined.

